(** * The registry digest lookup of the docker provider

    A shallow embedding of
    [internal/provider/data_source_docker_registry_image.go]: the reference
    normalisation of [dataSourceDockerRegistryImageRead], the manifest
    request and the bearer handshake of [getImageDigest], the challenge
    parser [parseAuthHeader] and the digest extractor
    [getDigestFromResponse], together with the parts of the Go standard
    library they call ([strings], [encoding/base64], [net/url],
    [crypto/sha256], [encoding/json], [net/http]).

    Conventions.
    - Go strings are byte strings: they are [string], one [ascii] per byte,
      and [[]byte] is [list byte].
    - A result pair [(value, error)] is a [result]; a run-time panic is
      [None] in a pure function and [Panic] in a program.
    - Code that touches the network is a [Prog]: a tree of the actions
      "assign the transport of [http.DefaultClient]", "[client.Do]" and
      "[ioutil.ReadAll]".  [run] executes it against a [Remote] and records
      the requests sent and the bodies read in the [World].
    - [url.Parse], as [http.NewRequest] calls it, and
      [normalizeRegistryAddress], which is defined in another file of the
      provider, are parameters of the section [Provider]; all results hold
      for every choice of them.  [parseImageOptions], also defined
      elsewhere, is modelled from the specification. *)

From Stdlib Require Import ZArith Lia Ascii Bool.
From Stdlib.Strings Require Import Byte.
From Stdlib Require String.
From stdpp Require Import base option list strings gmap.

Local Open Scope Z_scope.

(** ** Package [strings] *)

Module strings.

Fixpoint len (s : string) : nat :=
  match s with
  | EmptyString => 0%nat
  | String _ s' => S (len s')
  end.

(** [s[n:]] and [s[:n]] for [n <= len s]. *)
Fixpoint drop (n : nat) (s : string) : string :=
  match n, s with
  | O, _ => s
  | S n', String _ s' => drop n' s'
  | S _, EmptyString => EmptyString
  end.

Fixpoint take (n : nat) (s : string) : string :=
  match n, s with
  | O, _ => EmptyString
  | S n', String c s' => String c (take n' s')
  | S _, EmptyString => EmptyString
  end.

Fixpoint HasPrefix (s prefix : string) {struct prefix} : bool :=
  match prefix, s with
  | EmptyString, _ => true
  | String c p', String d s' => Ascii.eqb c d && HasPrefix s' p'
  | String _ _, EmptyString => false
  end.

(** [Index] returns the byte offset of the first occurrence; Go's [-1] is
    [None]. *)
Fixpoint Index (s substr : string) : option nat :=
  if HasPrefix s substr then Some 0%nat
  else match s with
       | EmptyString => None
       | String _ s' => S <$> Index s' substr
       end.

Definition Contains (s substr : string) : bool :=
  match Index s substr with Some _ => true | None => false end.

(** [LastIndex]: the offset of the last occurrence. *)
Fixpoint LastIndex (s substr : string) : option nat :=
  match s with
  | EmptyString => if HasPrefix s substr then Some 0%nat else None
  | String _ s' =>
      match LastIndex s' substr with
      | Some i => Some (S i)
      | None => if HasPrefix s substr then Some 0%nat else None
      end
  end.

(** The loop of [genSplit] for a non-empty separator, [cuts] being the
    number of iterations it is allowed ([n - 1] in the Go code). *)
Fixpoint genSplit (cuts : nat) (s sep : string) : list string :=
  match cuts with
  | O => [s]
  | S k =>
      match Index s sep with
      | None => [s]
      | Some m => take m s :: genSplit k (drop (m + len sep) s) sep
      end
  end.

(** [SplitN] and [Split] for a non-empty separator (every separator in the
    provider is a one-byte constant).  With [n < 0] Go allows
    [Count(s, sep)] cuts, which [len s] bounds. *)
Definition SplitN (s sep : string) (n : Z) : list string :=
  if n =? 0 then []
  else if n <? 0 then genSplit (len s) s sep
  else genSplit (Z.to_nat n - 1) s sep.

Definition Split (s sep : string) : list string := SplitN s sep (-1).

(** [Replace(s, old, new, n)] for a non-empty [old]: the first [n]
    occurrences, all of them when [n < 0]. *)
Fixpoint replaceLoop (k : nat) (s old new : string) : string :=
  match k with
  | O => s
  | S k' =>
      match Index s old with
      | None => s
      | Some m =>
          take m s +:+ new +:+ replaceLoop k' (drop (m + len old) s) old new
      end
  end.

Definition Replace (s old new : string) (n : Z) : string :=
  if n <? 0 then replaceLoop (len s) s old new
  else replaceLoop (Z.to_nat n) s old new.

Fixpoint inCutset (c : ascii) (cutset : string) : bool :=
  match cutset with
  | EmptyString => false
  | String d cs => Ascii.eqb c d || inCutset c cs
  end.

Fixpoint TrimLeft (s cutset : string) : string :=
  match s with
  | EmptyString => EmptyString
  | String c s' => if inCutset c cutset then TrimLeft s' cutset else s
  end.

Fixpoint TrimRight (s cutset : string) : string :=
  match s with
  | EmptyString => EmptyString
  | String c s' =>
      match TrimRight s' cutset with
      | EmptyString => if inCutset c cutset then EmptyString
                       else String c EmptyString
      | t => String c t
      end
  end.

(** [Trim] for a cutset of ASCII bytes. *)
Definition Trim (s cutset : string) : string :=
  TrimRight (TrimLeft s cutset) cutset.

End strings.

(** The double quote, byte 34. *)
Definition dquote : ascii := "034"%char.

(** ** [parseAuthHeader] *)

(** [vals[1]] of a [[]string]: [None] is the index-out-of-range panic. *)
Definition index1 (vals : list string) : option string := vals !! 1%nat.

Definition index0 (vals : list string) : option string := vals !! 0%nat.

(** The body of the [for _, part := range parts] loop. *)
Definition parseAuthPart (opts : gmap string string) (part : string)
  : option (gmap string string) :=
  let vals := strings.SplitN part "=" 2 in
  key ← index0 vals;
  raw ← index1 vals;
  let val := strings.Trim raw (String dquote ", ") in
  Some (<[key := val]> opts).

Fixpoint parseAuthParts (parts : list string) (opts : gmap string string)
  : option (gmap string string) :=
  match parts with
  | [] => Some opts
  | part :: rest => opts' ← parseAuthPart opts part; parseAuthParts rest opts'
  end.

(** Parses key/value pairs from a WWW-Authenticate header.  [None] stands
    for the run-time panic of an out-of-range index. *)
Definition parseAuthHeader (header : string) : option (gmap string string) :=
  let parts := strings.SplitN header " " 2 in
  rest ← index1 parts;
  let parts := strings.Split rest "," in
  parseAuthParts parts ∅.

(** ** Bytes and their encodings *)

Definition byte_of_Z (z : Z) : byte :=
  match Byte.of_N (Z.to_N (z mod 256)) with
  | Some b => b
  | None => x00
  end.

Definition Z_of_byte (b : byte) : Z := Z.of_N (Byte.to_N b).

(** The value of a byte of a string, and the byte of a value below 256. *)
Definition code (c : ascii) : Z := Z.of_nat (nat_of_ascii c).

Definition chr (n : Z) : ascii := ascii_of_nat (Z.to_nat n).

Definition between (lo hi : Z) (c : ascii) : bool :=
  (lo <=? code c) && (code c <=? hi).

(** [[]byte(s)] and [string(b)]. *)
Definition bytes_of_string (s : string) : list byte :=
  String.list_byte_of_string s.

Definition string_of_bytes (b : list byte) : string :=
  String.string_of_list_byte b.

Definition string_of_asciis (l : list ascii) : string :=
  fold_right String EmptyString l.

(** The digit of [n mod 16] in the given sixteen-character alphabet. *)
Definition digit16 (alphabet : string) (n : Z) : ascii :=
  match String.get (Z.to_nat (n mod 16)) alphabet with
  | Some c => c
  | None => "0"%char
  end.

Fixpoint allChars (p : ascii -> bool) (s : string) : bool :=
  match s with
  | EmptyString => true
  | String c s' => p c && allChars p s'
  end.

Definition isLowerHex (c : ascii) : bool :=
  between 48 57 c || between 97 102 c.

Definition lowerhex : string := "0123456789abcdef".
Definition upperhex : string := "0123456789ABCDEF".

(** [fmt.Sprintf("%x", b)] for a byte array: two lowercase digits a byte. *)
Fixpoint hex (b : list byte) : string :=
  match b with
  | [] => EmptyString
  | x :: b' =>
      String (digit16 lowerhex (Z_of_byte x / 16))
        (String (digit16 lowerhex (Z_of_byte x)) (hex b'))
  end.

(** *** [encoding/base64], [StdEncoding.EncodeToString] *)

Module b64.

Definition encodeStd : string :=
  "ABCDEFGHIJKLMNOPQRSTUVWXYZabcdefghijklmnopqrstuvwxyz0123456789+/".

Definition sextet (n : Z) : ascii :=
  match String.get (Z.to_nat (n mod 64)) encodeStd with
  | Some c => c
  | None => "A"%char
  end.

Definition pad : ascii := "="%char.

Fixpoint encode (src : list byte) : list ascii :=
  match src with
  | [] => []
  | [x] =>
      let v := Z.shiftl (Z_of_byte x) 16 in
      [sextet (Z.shiftr v 18); sextet (Z.shiftr v 12); pad; pad]
  | [x; y] =>
      let v := Z.lor (Z.shiftl (Z_of_byte x) 16) (Z.shiftl (Z_of_byte y) 8) in
      [sextet (Z.shiftr v 18); sextet (Z.shiftr v 12); sextet (Z.shiftr v 6);
       pad]
  | x :: y :: z :: rest =>
      let v := Z.lor (Z.lor (Z.shiftl (Z_of_byte x) 16)
                            (Z.shiftl (Z_of_byte y) 8)) (Z_of_byte z) in
      sextet (Z.shiftr v 18) :: sextet (Z.shiftr v 12)
        :: sextet (Z.shiftr v 6) :: sextet v :: encode rest
  end.

Definition EncodeToString (src : list byte) : string :=
  string_of_asciis (encode src).

End b64.

(** *** [net/url], [QueryEscape] and [Values.Encode] *)

Module url.

Definition isAlnum (c : ascii) : bool :=
  between 48 57 c || between 65 90 c || between 97 122 c.

(** [shouldEscape(c, encodeQueryComponent)]: only the unreserved bytes
    pass unescaped. *)
Definition shouldEscape (c : ascii) : bool :=
  negb (isAlnum c || strings.inCutset c "-_.~").

Fixpoint QueryEscape (s : string) : string :=
  match s with
  | EmptyString => EmptyString
  | String c s' =>
      if Ascii.eqb c " " then String "+" (QueryEscape s')
      else if shouldEscape c then
        let n := Z.of_nat (nat_of_ascii c) in
        String "%" (String (digit16 upperhex (n / 16))
                      (String (digit16 upperhex n) (QueryEscape s')))
      else String c (QueryEscape s')
  end.

(** [url.Values], a [map[string][]string]. *)
Abbreviation Values := (gmap string (list string)).

Definition Set_ (v : Values) (key value : string) : Values :=
  <[key := [value]]> v.

Definition insertSorted (k : string) (ks : list string) : list string :=
  filter (fun x => String.ltb x k = true) ks ++ k ::
  filter (fun x => String.ltb x k = false) ks.

(** The keys of a map in the order of [sort.Strings], bytewise. *)
Definition sortedKeys (v : Values) : list string :=
  foldr insertSorted [] (map fst (map_to_list v)).

Definition encodeKey (v : Values) (k : string) : list string :=
  match v !! k with
  | Some vs => map (fun x => QueryEscape k +:+ "=" +:+ QueryEscape x) vs
  | None => []
  end.

Fixpoint join (parts : list string) (sep : string) : string :=
  match parts with
  | [] => EmptyString
  | [p] => p
  | p :: ps => p +:+ sep +:+ join ps sep
  end.

(** [Values.Encode]: "key=value" pairs joined by "&", sorted by key. *)
Definition Encode (v : Values) : string :=
  join (concat (map (encodeKey v) (sortedKeys v))) "&".

End url.

(** ** [crypto/sha256] (FIPS 180-4) *)

Module sha256.

(** 32-bit words are integers in [0, 2^32), the wrap-around written out. *)
Definition wrap (x : Z) : Z := x mod 2 ^ 32.

Definition add (x y : Z) : Z := wrap (x + y).

Definition rotr (n x : Z) : Z :=
  Z.lor (Z.shiftr x n) (wrap (Z.shiftl x (32 - n))).

Definition Ch (x y z : Z) : Z :=
  Z.lxor (Z.land x y) (Z.land (Z.lxor x (2 ^ 32 - 1)) z).

Definition Maj (x y z : Z) : Z :=
  Z.lxor (Z.lxor (Z.land x y) (Z.land x z)) (Z.land y z).

Definition Sigma0 (x : Z) : Z :=
  Z.lxor (Z.lxor (rotr 2 x) (rotr 13 x)) (rotr 22 x).

Definition Sigma1 (x : Z) : Z :=
  Z.lxor (Z.lxor (rotr 6 x) (rotr 11 x)) (rotr 25 x).

Definition sigma0 (x : Z) : Z :=
  Z.lxor (Z.lxor (rotr 7 x) (rotr 18 x)) (Z.shiftr x 3).

Definition sigma1 (x : Z) : Z :=
  Z.lxor (Z.lxor (rotr 17 x) (rotr 19 x)) (Z.shiftr x 10).

(** The first 32 bits of the fractional part of a cube root: the integer
    cube root of [p * 2^96], by bisection between [lo] and [hi], modulo
    [2^32]. *)
Fixpoint cbrtBisect (fuel : nat) (lo hi n : Z) : Z :=
  match fuel with
  | O => lo
  | S f =>
      if hi - lo <=? 1 then lo
      else
        let mid := (lo + hi) / 2 in
        if mid * mid * mid <=? n then cbrtBisect f mid hi n
        else cbrtBisect f lo mid n
  end.

Definition fracCbrt (p : Z) : Z := wrap (cbrtBisect 40 0 (2 ^ 35) (p * 2 ^ 96)).

Definition fracSqrt (p : Z) : Z := wrap (Z.sqrt (p * 2 ^ 64)).

Definition isPrime (n : Z) : bool :=
  forallb (fun d => negb (n mod Z.of_nat d =? 0)) (seq 2 (Z.to_nat n - 2)).

(** The first sixty-four primes, 2 to 311. *)
Definition primes : list Z :=
  Eval vm_compute in filter (fun n => isPrime n = true) (map Z.of_nat (seq 2 310)).

(** The round constants: the cube roots of the first sixty-four primes. *)
Definition K : list Z := Eval vm_compute in map fracCbrt primes.

(** The eight working variables and the chaining value. *)
Record digest := Digest {
  h0 : Z; h1 : Z; h2 : Z; h3 : Z; h4 : Z; h5 : Z; h6 : Z; h7 : Z }.

(** The initial hash value: the square roots of the first eight primes. *)
Definition init : digest :=
  Eval vm_compute in
    match map fracSqrt primes with
    | a :: b :: c :: d :: e :: f :: g :: h :: _ => Digest a b c d e f g h
    | _ => Digest 0 0 0 0 0 0 0 0
    end.

(** Message schedule: [w] holds the sixteen latest words, oldest first. *)
Fixpoint schedule (n : nat) (w : list Z) : list Z :=
  match n with
  | O => []
  | S n' =>
      match w with
      | [] => []
      | w0 :: tl =>
          let new := add (add (sigma1 (nth 13 tl 0)) (nth 8 tl 0))
                         (add (sigma0 (nth 0 tl 0)) w0) in
          new :: schedule n' (tl ++ [new])
      end
  end.

Definition round (s : digest) (kw : Z * Z) : digest :=
  let '(k, w) := kw in
  let t1 := add (add (add (h7 s) (Sigma1 (h4 s)))
                     (add (Ch (h4 s) (h5 s) (h6 s)) k)) w in
  let t2 := add (Sigma0 (h0 s)) (Maj (h0 s) (h1 s) (h2 s)) in
  Digest (add t1 t2) (h0 s) (h1 s) (h2 s) (add (h3 s) t1) (h4 s) (h5 s) (h6 s).

(** One 64-byte block, given as its sixteen big-endian words. *)
Definition block (s : digest) (w : list Z) : digest :=
  let ws := w ++ schedule 48 w in
  let r := fold_left round (combine K ws) s in
  Digest (add (h0 s) (h0 r)) (add (h1 s) (h1 r)) (add (h2 s) (h2 r))
         (add (h3 s) (h3 r)) (add (h4 s) (h4 r)) (add (h5 s) (h5 r))
         (add (h6 s) (h6 r)) (add (h7 s) (h7 r)).

Fixpoint words (b : list Z) : list Z :=
  match b with
  | b0 :: b1 :: b2 :: b3 :: rest =>
      (((b0 * 256 + b1) * 256 + b2) * 256 + b3) :: words rest
  | _ => []
  end.

Fixpoint blocks (n : nat) (s : digest) (w : list Z) : digest :=
  match n with
  | O => s
  | S n' => blocks n' (block s (firstn 16 w)) (skipn 16 w)
  end.

(** The message followed by 0x80, zeros up to 56 mod 64, and the bit length
    as a 64-bit big-endian integer. *)
Definition padded (msg : list Z) : list Z :=
  let l := Z.of_nat (length msg) in
  let zeros := Z.to_nat ((55 - l) mod 64) in
  let bits := l * 8 in
  msg ++ [128] ++ repeat 0 zeros
      ++ map (fun i => Z.shiftr bits (8 * (7 - Z.of_nat i)) mod 256) (seq 0 8).

Definition wordBytes (x : Z) : list byte :=
  [byte_of_Z (Z.shiftr x 24); byte_of_Z (Z.shiftr x 16);
   byte_of_Z (Z.shiftr x 8); byte_of_Z x].

(** [sha256.Sum256]: the 32 bytes of the digest. *)
Definition Sum256 (data : list byte) : list byte :=
  let p := padded (map Z_of_byte data) in
  let d := blocks (length p / 64) init (words p) in
  wordBytes (h0 d) ++ wordBytes (h1 d) ++ wordBytes (h2 d) ++ wordBytes (h3 d)
  ++ wordBytes (h4 d) ++ wordBytes (h5 d) ++ wordBytes (h6 d)
  ++ wordBytes (h7 d).

End sha256.

(** ** [encoding/json] *)

Module json.

#[warnings="-register-all"]
Inductive value : Type :=
| Null
| Bool (b : bool)
| Number (literal : string)
| Str (s : string)
| Array (elems : list value)
| Object (members : list (string * value)).

Definition isSpace (c : ascii) : bool :=
  strings.inCutset c (String " " (String "009" (String "013" (String "010" EmptyString)))).

Fixpoint skipSpace (s : string) : string :=
  match s with
  | String c s' => if isSpace c then skipSpace s' else s
  | EmptyString => EmptyString
  end.

Definition isDigit (c : ascii) : bool := (48 <=? code c) && (code c <=? 57).

Definition hexval (c : ascii) : option Z :=
  let n := code c in
  if (48 <=? n) && (n <=? 57) then Some (n - 48)
  else if (97 <=? n) && (n <=? 102) then Some (n - 87)
  else if (65 <=? n) && (n <=? 70) then Some (n - 55)
  else None.

(** The four hex digits after a backslash-u. *)
Definition getu4 (s : string) : option (Z * string) :=
  match s with
  | String a (String b (String c (String d r))) =>
      x ← hexval a; y ← hexval b; z ← hexval c; w ← hexval d;
      Some (((x * 16 + y) * 16 + z) * 16 + w, r)
  | _ => None
  end.

(** [utf8.EncodeRune] *)
Definition encodeRune (r : Z) : string :=
  let cont x := chr (128 + x mod 64) in
  if r <? 128 then String (chr r) EmptyString
  else if r <? 2048 then String (chr (192 + r / 64)) (String (cont r) EmptyString)
  else if r <? 65536 then
    String (chr (224 + r / 4096))
      (String (cont (r / 64)) (String (cont r) EmptyString))
  else
    String (chr (240 + r / 262144))
      (String (cont (r / 4096))
         (String (cont (r / 64)) (String (cont r) EmptyString))).

Definition replacement : string := encodeRune 65533.

(** The length of the well-formed UTF-8 sequence at the head of [s], as
    [utf8.DecodeRune] accepts it; [None] for an invalid or truncated one. *)
Definition runeLen (s : string) : option nat :=
  match s with
  | EmptyString => None
  | String a r =>
      let n := code a in
      if n <? 128 then Some 1%nat
      else
        let lo1 := if n =? 224 then 160 else if n =? 240 then 144 else 128 in
        let hi1 := if n =? 237 then 159 else if n =? 244 then 143 else 191 in
        let want : nat :=
          if (194 <=? n) && (n <=? 223) then 2%nat
          else if (224 <=? n) && (n <=? 239) then 3%nat
          else if (240 <=? n) && (n <=? 244) then 4%nat else 0%nat in
        match want, r with
        | 2%nat, String b _ => if between lo1 hi1 b then Some 2%nat else None
        | 3%nat, String b (String c _) =>
            if between lo1 hi1 b && between 128 191 c then Some 3%nat else None
        | 4%nat, String b (String c (String d _)) =>
            if between lo1 hi1 b && between 128 191 c && between 128 191 d
            then Some 4%nat else None
        | _, _ => None
        end
  end.

(** A string literal after its opening quote: the scanner's checks and
    [unquote] in one pass.  Returns the decoded bytes and the input after
    the closing quote. *)
Fixpoint stringBody (fuel : nat) (s : string) : option (string * string) :=
  match fuel with
  | O => None
  | S f =>
      match s with
      | EmptyString => None
      | String c r =>
          if Ascii.eqb c dquote then Some (EmptyString, r)
          else if Ascii.eqb c "\" then
            match r with
            | String e r' =>
                let simple (x : ascii) :=
                  '(t, rest) ← stringBody f r'; Some (String x t, rest) in
                if Ascii.eqb e dquote then simple dquote
                else if Ascii.eqb e "\" then simple "\"%char
                else if Ascii.eqb e "/" then simple "/"%char
                else if Ascii.eqb e "b" then simple "008"%char
                else if Ascii.eqb e "f" then simple "012"%char
                else if Ascii.eqb e "n" then simple "010"%char
                else if Ascii.eqb e "r" then simple "013"%char
                else if Ascii.eqb e "t" then simple "009"%char
                else if Ascii.eqb e "u" then
                  '(u, r1) ← getu4 r';
                  if (55296 <=? u) && (u <? 57344) then
                    (* a surrogate: combined with a following low half, or
                       replaced by U+FFFD *)
                    let lone := '(t, rest) ← stringBody f r1;
                                Some (replacement +:+ t, rest) in
                    match r1 with
                    | String b1 (String b2 r2) =>
                        if Ascii.eqb b1 "\" && Ascii.eqb b2 "u" then
                          match getu4 r2 with
                          | Some (v, r3) =>
                              if (u <? 56320) && (56320 <=? v) && (v <? 57344)
                              then '(t, rest) ← stringBody f r3;
                                   Some (encodeRune
                                           (65536 + (u - 55296) * 1024
                                            + (v - 56320)) +:+ t, rest)
                              else lone
                          | None => lone
                          end
                        else lone
                    | _ => lone
                    end
                  else '(t, rest) ← stringBody f r1;
                       Some (encodeRune u +:+ t, rest)
                else None
            | EmptyString => None
            end
          else if code c <? 32 then None
          else
            match runeLen s with
            | Some n => '(t, rest) ← stringBody f (strings.drop n s);
                        Some (strings.take n s +:+ t, rest)
            | None => '(t, rest) ← stringBody f r;
                      Some (replacement +:+ t, rest)
            end
      end
  end.

Fixpoint digits (s : string) : string * string :=
  match s with
  | String c r =>
      if isDigit c then let '(d, rest) := digits r in (String c d, rest)
      else (EmptyString, s)
  | EmptyString => (EmptyString, EmptyString)
  end.

(** A number literal: an optional minus sign; an integer part, 0 or a
    non-zero digit and further digits; an optional fraction, a dot and at
    least one digit; an optional exponent, e or E, an optional sign and at
    least one digit. *)
Definition number (s : string) : option (string * string) :=
  let '(sign, s1) :=
    match s with
    | String "-" r => ("-", r)
    | _ => (EmptyString, s)
    end in
  '(int, s2) ←
    match s1 with
    | String "0" r => Some ("0", r)
    | String c _ => if isDigit c then Some (digits s1) else None
    | EmptyString => None
    end;
  '(frac, s3) ←
    match s2 with
    | String "." r =>
        let '(d, rest) := digits r in
        if decide (d = EmptyString) then None else Some ("." +:+ d, rest)
    | _ => Some (EmptyString, s2)
    end;
  '(exp, s4) ←
    match s3 with
    | String e r =>
        if Ascii.eqb e "e" || Ascii.eqb e "E" then
          let '(sg, r') :=
            match r with
            | String "+" t => ("+", t)
            | String "-" t => ("-", t)
            | _ => (EmptyString, r)
            end in
          let '(d, rest) := digits r' in
          if decide (d = EmptyString) then None
          else Some (String e sg +:+ d, rest)
        else Some (EmptyString, s3)
    | EmptyString => Some (EmptyString, s3)
    end;
  Some (sign +:+ int +:+ frac +:+ exp, s4).

Section Compound.

Variable elem : string -> option (value * string).

(** The elements of an array after the first one. *)
Fixpoint elements (fuel : nat) (s : string) : option (list value * string) :=
  match fuel with
  | O => None
  | S f =>
      match skipSpace s with
      | String "]" r => Some ([], r)
      | String "," r =>
          '(v, r1) ← elem r; '(vs, r2) ← elements f r1; Some (v :: vs, r2)
      | _ => None
      end
  end.

Definition member (s : string) : option ((string * value) * string) :=
  match skipSpace s with
  | String c r =>
      if Ascii.eqb c dquote then
        '(k, r1) ← stringBody (S (strings.len r)) r;
        match skipSpace r1 with
        | String ":" r2 => '(v, r3) ← elem r2; Some ((k, v), r3)
        | _ => None
        end
      else None
  | EmptyString => None
  end.

(** The members of an object after the first one. *)
Fixpoint members (fuel : nat) (s : string)
  : option (list (string * value) * string) :=
  match fuel with
  | O => None
  | S f =>
      match skipSpace s with
      | String "}" r => Some ([], r)
      | String "," r =>
          '(m, r1) ← member r; '(ms, r2) ← members f r1; Some (m :: ms, r2)
      | _ => None
      end
  end.

End Compound.

Definition maxNestingDepth : Z := 10000.

(** One JSON value, at nesting depth [depth]. *)
Fixpoint parseValue (fuel : nat) (depth : Z) (s : string)
  : option (value * string) :=
  match fuel with
  | O => None
  | S f =>
      let s := skipSpace s in
      match s with
      | EmptyString => None
      | String c r =>
          if Ascii.eqb c "{" then
            if maxNestingDepth <? depth + 1 then None
            else
              match skipSpace r with
              | String "}" r' => Some (Object [], r')
              | _ =>
                  '(m, r1) ← member (parseValue f (depth + 1)) r;
                  '(ms, r2) ← members (parseValue f (depth + 1))
                                 (S (strings.len r1)) r1;
                  Some (Object (m :: ms), r2)
              end
          else if Ascii.eqb c "[" then
            if maxNestingDepth <? depth + 1 then None
            else
              match skipSpace r with
              | String "]" r' => Some (Array [], r')
              | _ =>
                  '(v, r1) ← parseValue f (depth + 1) r;
                  '(vs, r2) ← elements (parseValue f (depth + 1))
                                 (S (strings.len r1)) r1;
                  Some (Array (v :: vs), r2)
              end
          else if Ascii.eqb c dquote then
            '(t, r') ← stringBody (S (strings.len r)) r; Some (Str t, r')
          else if strings.HasPrefix s "true" then
            Some (Bool true, strings.drop 4 s)
          else if strings.HasPrefix s "false" then
            Some (Bool false, strings.drop 5 s)
          else if strings.HasPrefix s "null" then Some (Null, strings.drop 4 s)
          else '(n, r') ← number s; Some (Number n, r')
      end
  end.

(** [checkValid] and the scan of the whole input: one value, then only
    white space. *)
Definition parse (data : string) : option value :=
  '(v, rest) ← parseValue (S (strings.len data)) 0 data;
  if decide (skipSpace rest = EmptyString) then Some v else None.

Definition isAsciiUpper (c : Z) : bool := (65 <=? c) && (c <=? 90).

(** [equalFoldRight]: [s] is the field name, [t] the key of the input. *)
Fixpoint equalFoldRight (s t : string) : bool :=
  match s with
  | EmptyString => if decide (t = EmptyString) then true else false
  | String sb s' =>
      match t with
      | EmptyString => false
      | String tb t' =>
          if code tb <? 128 then
            (Ascii.eqb sb tb
             || (isAsciiUpper (Z.land (code sb) 223)
                 && (Z.land (code sb) 223 =? Z.land (code tb) 223)))
            && equalFoldRight s' t'
          else if Ascii.eqb sb "s" || Ascii.eqb sb "S" then
            strings.HasPrefix t (encodeRune 383)
            && equalFoldRight s' (strings.drop 2 t)
          else if Ascii.eqb sb "k" || Ascii.eqb sb "K" then
            strings.HasPrefix t (encodeRune 8490)
            && equalFoldRight s' (strings.drop 3 t)
          else false
      end
  end.

Inductive error : Type :=
| SyntaxError
| UnmarshalTypeError (found : string).

End json.

(** ** Results and errors *)

(** A Go result pair [(value, error)]: the value when [err == nil]. *)
Inductive result (E A : Type) : Type :=
| OK (a : A)
| Error (e : E).
Arguments OK {E A} a.
Arguments Error {E A} e.

(** The errors of the provider, one constructor for each [fmt.Errorf] of
    the file, carrying what is formatted into the message. *)
Inductive error : Type :=
| ErrCreatingRequest (cause : string)
    (* "Error creating registry request: %s" *)
| ErrDuringRequest (cause : string)
    (* "Error during registry request: %s" *)
| ErrBadResponse (status : string)
    (* "Got bad response from registry: " + Status *)
| ErrBadCredentials (status : string)
    (* "Bad credentials: " + Status *)
| ErrReadingBody (cause : string)
    (* "Error reading response body: %s" *)
| ErrParsingToken (cause : json.error)
    (* "Error parsing OAuth token response: %s" *)
| ErrReadingRegistryBody (cause : string)
    (* "Error reading registry response body: %s" *).

(** The error kinds by which the specification names them. *)
Inductive ErrorKind : Type :=
| RequestBuildError | NetworkError | BadCredentials | RegistryError
| TokenParseError | BodyReadError.

Definition kind (e : error) : ErrorKind :=
  match e with
  | ErrCreatingRequest _ => RequestBuildError
  | ErrDuringRequest _ => NetworkError
  | ErrBadResponse _ => RegistryError
  | ErrBadCredentials _ => BadCredentials
  | ErrReadingBody _ => BodyReadError
  | ErrParsingToken _ => TokenParseError
  | ErrReadingRegistryBody _ => BodyReadError
  end.

(** ** [net/http] *)

Module http.

(** [http.Header], a [map[string][]string] under canonical keys. *)
Abbreviation Header := (gmap string (list string)).

Definition isLower (c : ascii) : bool := between 97 122 c.
Definition isUpper (c : ascii) : bool := between 65 90 c.

(** [validHeaderFieldByte]: the token characters of RFC 7230. *)
Definition validHeaderFieldByte (c : ascii) : bool :=
  url.isAlnum c || strings.inCutset c "!#$%&'*+-.^_`|~".

Fixpoint allValid (s : string) : bool :=
  match s with
  | EmptyString => true
  | String c s' => validHeaderFieldByte c && allValid s'
  end.

Fixpoint canonicalize (upper : bool) (s : string) : string :=
  match s with
  | EmptyString => EmptyString
  | String c s' =>
      let c' := if upper && isLower c then chr (code c - 32)
                else if negb upper && isUpper c then chr (code c + 32)
                else c in
      String c' (canonicalize (Ascii.eqb c' "-") s')
  end.

(** [textproto.CanonicalMIMEHeaderKey]: a key that is not a token is left
    as it is. *)
Definition CanonicalMIMEHeaderKey (s : string) : string :=
  if allValid s then canonicalize true s else s.

Definition Add (h : Header) (key value : string) : Header :=
  let k := CanonicalMIMEHeaderKey key in
  <[k := default [] (h !! k) ++ [value]]> h.

Definition Set_ (h : Header) (key value : string) : Header :=
  <[CanonicalMIMEHeaderKey key := [value]]> h.

Definition Get (h : Header) (key : string) : string :=
  match h !! CanonicalMIMEHeaderKey key with
  | Some (v :: _) => v
  | _ => EmptyString
  end.

(** [*http.Request]: the method, the URL as it was given to [NewRequest],
    and the header. *)
Record Request := {
  Method : string;
  URL : string;
  ReqHeader : Header }.

Definition withHeader (req : Request) (h : Header) : Request :=
  {| Method := Method req; URL := URL req; ReqHeader := h |}.

(** A response body is a stream: reading it to the end delivers its bytes or
    fails part-way. *)
Inductive Body : Type :=
| Delivers (content : list byte)
| Breaks (err : string).

Record Response := {
  Status : string;
  StatusCode : Z;
  RespHeader : Header;
  RespBody : Body }.

Definition StatusOK : Z := 200.
Definition StatusUnauthorized : Z := 401.

(** [http.Transport{TLSClientConfig: &tls.Config{InsecureSkipVerify: b}}] *)
Record Transport := { InsecureSkipVerify : bool }.

Definition basicAuth (username password : string) : string :=
  b64.EncodeToString (bytes_of_string (username +:+ ":" +:+ password)).

Definition SetBasicAuth (req : Request) (username password : string)
  : Request :=
  withHeader req
    (Set_ (ReqHeader req) "Authorization"
       ("Basic " +:+ basicAuth username password)).

End http.

(** [ioutil.ReadAll] on a response body. *)
Definition readAll (b : http.Body) : result string (list byte) :=
  match b with
  | http.Delivers content => OK content
  | http.Breaks err => Error err
  end.

(** ** Programs that talk to the network

    The provider mutates the transport of the process-wide
    [http.DefaultClient], sends requests through it and reads response
    bodies.  A program is the tree of these actions; what the far side
    answers is supplied when it is run. *)

Inductive Prog (A : Type) : Type :=
| Ret (a : A)
| Panic
| SetTransport (t : http.Transport) (k : Prog A)
| Do (req : http.Request) (k : result string http.Response -> Prog A)
| ReadAll (b : http.Body) (k : result string (list byte) -> Prog A).
Arguments Ret {A} a.
Arguments Panic {A}.
Arguments SetTransport {A} t k.
Arguments Do {A} req k.
Arguments ReadAll {A} b k.

Fixpoint bind {A B : Type} (p : Prog A) (f : A -> Prog B) : Prog B :=
  match p with
  | Ret a => f a
  | Panic => Panic
  | SetTransport t k => SetTransport t (bind k f)
  | Do req k => Do req (fun r => bind (k r) f)
  | ReadAll b k => ReadAll b (fun r => bind (k r) f)
  end.

#[global] Instance Prog_ret : MRet Prog := fun _ a => Ret a.
#[global] Instance Prog_bind : MBind Prog := fun _ _ f p => bind p f.

(** The three actions as programs. *)
Definition setTransport (t : http.Transport) : Prog unit :=
  SetTransport t (Ret tt).
Definition clientDo (req : http.Request) : Prog (result string http.Response) :=
  Do req Ret.
Definition ioutilReadAll (b : http.Body) : Prog (result string (list byte)) :=
  ReadAll b Ret.

(** What an observer of the process sees. *)
Inductive Event : Type :=
| EvDo (via : option http.Transport) (req : http.Request)
| EvReadAll (b : http.Body).

(** The shared state: the transport of [http.DefaultClient] ([None] is the
    initial nil, Go's default transport) and the actions so far. *)
Record World := {
  DefaultClient_Transport : option http.Transport;
  trace : list Event }.

Definition initial : World :=
  {| DefaultClient_Transport := None; trace := [] |}.

Definition record (w : World) (e : Event) : World :=
  {| DefaultClient_Transport := DefaultClient_Transport w;
     trace := trace w ++ [e] |}.

(** The far side: what a request sent in a given world is answered with. *)
Definition Remote : Type := World -> http.Request -> result string http.Response.

(** One action of a program. *)
Definition step {A : Type} (remote : Remote) (p : Prog A) (w : World)
  : Prog A * World :=
  match p with
  | Ret _ | Panic => (p, w)
  | SetTransport t k =>
      (k, {| DefaultClient_Transport := Some t; trace := trace w |})
  | Do req k =>
      (k (remote w req), record w (EvDo (DefaultClient_Transport w) req))
  | ReadAll b k => (k (readAll b), record w (EvReadAll b))
  end.

(** A whole program: [None] when it panics. *)
Fixpoint run {A : Type} (remote : Remote) (p : Prog A) (w : World)
  : option A * World :=
  match p with
  | Ret a => (Some a, w)
  | Panic => (None, w)
  | SetTransport t k =>
      run remote k {| DefaultClient_Transport := Some t; trace := trace w |}
  | Do req k =>
      run remote (k (remote w req))
        (record w (EvDo (DefaultClient_Transport w) req))
  | ReadAll b k => run remote (k (readAll b)) (record w (EvReadAll b))
  end.

(** Two programs run as goroutines: each entry of the schedule lets the
    first ([true]) or the second ([false]) take one action. *)
Fixpoint interleave {A B : Type} (remote : Remote) (schedule : list bool)
  (p1 : Prog A) (p2 : Prog B) (w : World) : Prog A * Prog B * World :=
  match schedule with
  | [] => (p1, p2, w)
  | true :: rest =>
      let '(p1', w') := step remote p1 w in
      interleave remote rest p1' p2 w'
  | false :: rest =>
      let '(p2', w') := step remote p2 w in
      interleave remote rest p1 p2' w'
  end.

(** ** The provider *)

Record TokenResponse := { Token : string }.

(** The JSON kind named in an [UnmarshalTypeError]. *)
Definition kindName (v : json.value) : string :=
  match v with
  | json.Null => "null"
  | json.Bool _ => "bool"
  | json.Number _ => "number"
  | json.Str _ => "string"
  | json.Array _ => "array"
  | json.Object _ => "object"
  end.

(** One member of the object decoded into a [TokenResponse]: a key that
    folds to the field name stores a string, leaves the field on null and
    records a type error on anything else; other keys are skipped.  The
    first error is the one reported. *)
Definition storeMember (acc : TokenResponse * option json.error)
  (m : string * json.value) : TokenResponse * option json.error :=
  let '(k, v) := m in
  if json.equalFoldRight "Token" k then
    match v with
    | json.Str s => ({| Token := s |}, snd acc)
    | json.Null => acc
    | _ => (fst acc,
            match snd acc with
            | Some e => Some e
            | None => Some (json.UnmarshalTypeError (kindName v))
            end)
    end
  else acc.

(** [json.Unmarshal(body, token)] for [token : *TokenResponse]. *)
Definition Unmarshal (data : list byte) (token : TokenResponse)
  : result json.error TokenResponse :=
  match json.parse (string_of_bytes data) with
  | None => Error json.SyntaxError
  | Some (json.Object ms) =>
      match fold_left storeMember ms (token, None) with
      | (t, None) => OK t
      | (_, Some e) => Error e
      end
  | Some json.Null => OK token
  | Some v => Error (json.UnmarshalTypeError (kindName v))
  end.

(** [getDigestFromResponse] *)
Definition getDigestFromResponse (response : http.Response)
  : Prog (result error string) :=
  let header := http.Get (http.RespHeader response) "Docker-Content-Digest" in
  if decide (header = EmptyString) then
    body ← ioutilReadAll (http.RespBody response);
    match body with
    | Error err => mret (Error (ErrReadingRegistryBody err))
    | OK body => mret (OK ("sha256:" +:+ hex (sha256.Sum256 body)))
    end
  else mret (OK header).

(** [auth[key]]: the zero value for a missing key. *)
Definition at_ (auth : gmap string string) (key : string) : string :=
  default EmptyString (auth !! key).

(** The image reference as [parseImageOptions] returns it. *)
Record PullOpts := {
  Registry : string;
  Repository : string;
  Tag : string }.

(** Lines 52 to 69 of [dataSourceDockerRegistryImageRead]. *)
Definition normalize (pullOpts : PullOpts) : PullOpts :=
  let registry :=
    if decide (Registry pullOpts = EmptyString) then "registry-1.docker.io"
    else Registry pullOpts in
  let repository :=
    if decide (Registry pullOpts = EmptyString) then Repository pullOpts
    else strings.Replace (Repository pullOpts)
           (Registry pullOpts +:+ "/") EmptyString 1 in
  let repository :=
    if decide (registry = "registry-1.docker.io") then
      if negb (strings.Contains repository "/") then "library/" +:+ repository
      else repository
    else repository in
  let tag :=
    if decide (Tag pullOpts = EmptyString) then "latest" else Tag pullOpts in
  {| Registry := registry; Repository := repository; Tag := tag |}.

(** Modelled from the spec: [parseImageOptions] is not part of this file.
    Section 4.1, rules 1 and 2: a colon after the last "/" splits off the
    tag (the last such colon is taken); if the segment before the first "/"
    contains "." or ":" it is the registry and the rest the repository,
    otherwise the registry is empty. *)
Definition parseImageOptions (image : string) : PullOpts :=
  let afterSlash :=
    match strings.LastIndex image "/" with
    | Some i => S i
    | None => 0%nat
    end in
  let '(name, tag) :=
    match strings.LastIndex (strings.drop afterSlash image) ":" with
    | Some i => (strings.take (afterSlash + i) image,
                 strings.drop (afterSlash + i + 1) image)
    | None => (image, EmptyString)
    end in
  match strings.Index name "/" with
  | Some i =>
      let first := strings.take i name in
      if strings.Contains first "." || strings.Contains first ":" then
        {| Registry := first; Repository := strings.drop (S i) name;
           Tag := tag |}
      else {| Registry := EmptyString; Repository := name; Tag := tag |}
  | None => {| Registry := EmptyString; Repository := name; Tag := tag |}
  end.

(** An entry of [ProviderConfig.AuthConfigs.Configs]. *)
Record AuthConfig := { Username : string; Password : string }.

(** What the read leaves behind: the resource data with its id and
    [sha256_digest] set and no diagnostics, or the diagnostic of
    [diag.Errorf]. *)
Inductive ReadResult : Type :=
| ReadOK (id sha256_digest : string)
| ReadErrorf (repository tag : string) (err : error).

Definition mediaTypes : list string :=
  [ "application/vnd.docker.distribution.manifest.v2+json";
    "application/vnd.docker.distribution.manifest.list.v2+json";
    "application/vnd.oci.image.manifest.v1+json";
    "application/vnd.oci.image.index.v1+json" ].

Definition legacyMediaType : string :=
  "application/vnd.docker.distribution.manifest.v1+prettyjws".

Section Provider.

(** [url.Parse] inside [http.NewRequest]: the error it returns for a URL,
    if any. *)
Variable urlParseError : string -> option string.

(** [normalizeRegistryAddress], defined in another file of the provider. *)
Variable normalizeRegistryAddress : string -> string.

(** [http.NewRequest(method, url, nil)] for a valid method. *)
Definition NewRequest (method url : string) : result string http.Request :=
  match urlParseError url with
  | Some err => Error err
  | None => OK {| http.Method := method; http.URL := url;
                  http.ReqHeader := ∅ |}
  end.

(** Lines 104 to 121 of [getImageDigest]: the credentials and the Accept
    headers of the manifest request. *)
Definition decorate (req : http.Request) (registry username password : string)
  (fallback : bool) : http.Request :=
  let req :=
    if decide (username ≠ EmptyString) then
      if decide (registry ≠ "ghcr.io") then
        http.SetBasicAuth req username password
      else
        http.withHeader req
          (http.Add (http.ReqHeader req) "Authorization"
             ("Bearer "
              +:+ b64.EncodeToString (bytes_of_string password)))
    else req in
  let req :=
    http.withHeader req
      (fold_left (fun h v => http.Add h "Accept" v) mediaTypes
         (http.ReqHeader req)) in
  if fallback then
    http.withHeader req (http.Set_ (http.ReqHeader req) "Accept" legacyMediaType)
  else req.

(** The query of the token request, lines 137 to 139. *)
Definition tokenParams (auth : gmap string string) : url.Values :=
  url.Set_ (url.Set_ ∅ "service" (at_ auth "service")) "scope"
    (at_ auth "scope").

(** The URL of the token request, line 140. *)
Definition tokenURL (auth : gmap string string) : string :=
  at_ auth "realm" +:+ "?" +:+ url.Encode (tokenParams auth).

(** Lines 145 to 147. *)
Definition withCredentials (tokenRequest : http.Request)
  (username password : string) : http.Request :=
  if decide (username ≠ EmptyString) then
    http.SetBasicAuth tokenRequest username password
  else tokenRequest.

(** Line 169: [req.Header.Set("Authorization", "Bearer "+token.Token)]. *)
Definition withBearer (req : http.Request) (token : TokenResponse)
  : http.Request :=
  http.withHeader req
    (http.Set_ (http.ReqHeader req) "Authorization"
       ("Bearer " +:+ Token token)).

(** Lines 169 to 179: the manifest request once more, with the token. *)
Definition retry (req : http.Request) (token : TokenResponse)
  : Prog (result error string) :=
  let req := withBearer req token in
  digestResponse ← clientDo req;
  match digestResponse with
  | Error err => mret (Error (ErrDuringRequest err))
  | OK digestResponse =>
      if negb (http.StatusCode digestResponse =? http.StatusOK) then
        mret (Error (ErrBadResponse (http.Status digestResponse)))
      else getDigestFromResponse digestResponse
  end.

(** Lines 135 to 179: the bearer handshake, [req] being the manifest request
    that was answered with the challenge [challenge]. *)
Definition handshake (req : http.Request) (challenge username password : string)
  : Prog (result error string) :=
  match parseAuthHeader challenge with
  | None => Panic
  | Some auth =>
      match NewRequest "GET" (tokenURL auth) with
      | Error err => mret (Error (ErrCreatingRequest err))
      | OK tokenRequest =>
          let tokenRequest := withCredentials tokenRequest username password in
          tokenResponse ← clientDo tokenRequest;
          match tokenResponse with
          | Error err => mret (Error (ErrDuringRequest err))
          | OK tokenResponse =>
              if negb (http.StatusCode tokenResponse =? http.StatusOK) then
                mret (Error (ErrBadResponse (http.Status tokenResponse)))
              else
                body ← ioutilReadAll (http.RespBody tokenResponse);
                match body with
                | Error err => mret (Error (ErrReadingBody err))
                | OK body =>
                    match Unmarshal body {| Token := EmptyString |} with
                    | Error err => mret (Error (ErrParsingToken err))
                    | OK token => retry req token
                    end
                end
          end
      end
  end.

(** Lines 128 to 187: the switch on the status code of the first answer. *)
Definition dispatch (req : http.Request) (resp : http.Response)
  (username password : string) : Prog (result error string) :=
  if http.StatusCode resp =? http.StatusOK then getDigestFromResponse resp
  else if http.StatusCode resp =? http.StatusUnauthorized then
    if strings.HasPrefix (http.Get (http.RespHeader resp) "www-authenticate")
         "Bearer" then
      handshake req (http.Get (http.RespHeader resp) "www-authenticate")
        username password
    else mret (Error (ErrBadCredentials (http.Status resp)))
  else mret (Error (ErrBadResponse (http.Status resp))).

Definition manifestURL (registry image tag : string) : string :=
  "https://" +:+ registry +:+ "/v2/" +:+ image +:+ "/manifests/" +:+ tag.

(** [getImageDigest] *)
Definition getImageDigest (registry image tag username password : string)
  (insecureSkipVerify fallback : bool) : Prog (result error string) :=
  setTransport {| http.InsecureSkipVerify := insecureSkipVerify |};;
  match NewRequest "GET" (manifestURL registry image tag) with
  | Error err => mret (Error (ErrCreatingRequest err))
  | OK req =>
      let req := decorate req registry username password fallback in
      resp ← clientDo req;
      match resp with
      | Error err => mret (Error (ErrDuringRequest err))
      | OK resp => dispatch req resp username password
      end
  end.

(** Lines 71 to 77: the credentials of the registry, empty when the store
    has none. *)
Definition credentials (configs : gmap string AuthConfig) (registry : string)
  : string * string :=
  match configs !! normalizeRegistryAddress registry with
  | Some auth => (Username auth, Password auth)
  | None => (EmptyString, EmptyString)
  end.

(** [dataSourceDockerRegistryImageRead], for the [name] and
    [insecure_skip_verify] of the resource data and the [Configs] of the
    provider's [AuthConfigs]. *)
Definition dataSourceDockerRegistryImageRead (name : string)
  (insecureSkipVerify : bool) (configs : gmap string AuthConfig)
  : Prog ReadResult :=
  let pullOpts := normalize (parseImageOptions name) in
  let '(username, password) := credentials configs (Registry pullOpts) in
  first ← getImageDigest (Registry pullOpts) (Repository pullOpts)
            (Tag pullOpts) username password insecureSkipVerify false;
  match first with
  | OK digest => mret (ReadOK digest digest)
  | Error _ =>
      second ← getImageDigest (Registry pullOpts) (Repository pullOpts)
                 (Tag pullOpts) username password insecureSkipVerify true;
      match second with
      | OK digest => mret (ReadOK digest digest)
      | Error err =>
          mret (ReadErrorf (Repository pullOpts) (Tag pullOpts) err)
      end
  end.

End Provider.

(** ** Observations on runs and inputs *)

(** The requests sent, in order. *)
Fixpoint sent (events : list Event) : list http.Request :=
  match events with
  | [] => []
  | EvDo _ req :: rest => req :: sent rest
  | EvReadAll _ :: rest => sent rest
  end.

(** The response bodies read, in order. *)
Fixpoint bodiesRead (events : list Event) : list http.Body :=
  match events with
  | [] => []
  | EvDo _ _ :: rest => bodiesRead rest
  | EvReadAll b :: rest => b :: bodiesRead rest
  end.

(** A program that never assigns the transport. *)
Fixpoint transportFree {A : Type} (p : Prog A) : Prop :=
  match p with
  | Ret _ | Panic => True
  | SetTransport _ _ => False
  | Do _ k => forall r, transportFree (k r)
  | ReadAll _ k => forall r, transportFree (k r)
  end.

(** An event that is not a request sent through another transport than
    [t]. *)
Definition sentVia (t : option http.Transport) (e : Event) : Prop :=
  match e with
  | EvDo via _ => via = t
  | EvReadAll _ => True
  end.

(** The token an answer of the token endpoint yields: that of a 200 response
    whose body is delivered and decodes. *)
Definition tokenOf (answer : result string http.Response)
  : option TokenResponse :=
  match answer with
  | OK tokenResponse =>
      if http.StatusCode tokenResponse =? http.StatusOK then
        match readAll (http.RespBody tokenResponse) with
        | OK body =>
            match Unmarshal body {| Token := EmptyString |} with
            | OK token => Some token
            | Error _ => None
            end
        | Error _ => None
        end
      else None
  | Error _ => None
  end.

(** A member that [Unmarshal] cannot store in a [TokenResponse]: its key
    folds to the field name and its value is neither a string nor null. *)
Definition badMember (m : string * json.value) : bool :=
  json.equalFoldRight "Token" (fst m)
  && match snd m with
     | json.Str _ | json.Null => false
     | _ => true
     end.

(** A JSON value of the wrong type for a [TokenResponse]. *)
Definition typeMismatch (v : json.value) : bool :=
  match v with
  | json.Object ms => existsb badMember ms
  | json.Null => false
  | _ => true
  end.

(** The token URL with the service parameter first, as the specification
    writes it. *)
Definition serviceFirstURL (auth : gmap string string) : string :=
  at_ auth "realm" +:+ "?service=" +:+ url.QueryEscape (at_ auth "service")
  +:+ "&scope=" +:+ url.QueryEscape (at_ auth "scope").

(** An instance of the URL check for the examples: the first test of
    [url.Parse], which refuses ASCII control bytes. *)
Definition stringContainsCTLByte (s : string) : bool :=
  negb (allChars (fun c => negb ((code c <? 32) || (code c =? 127))) s).

Definition rejectCTL (rawURL : string) : option string :=
  if stringContainsCTLByte rawURL then
    Some "net/url: invalid control character in URL"
  else None.

(** A response with the given status, header lines and body. *)
Definition respond (status : string) (statusCode : Z)
  (header : list (string * string)) (body : string) : http.Response :=
  {| http.Status := status;
     http.StatusCode := statusCode;
     http.RespHeader :=
       fold_left (fun h kv => http.Add h (fst kv) (snd kv)) header ∅;
     http.RespBody := http.Delivers (bytes_of_string body) |}.

Definition quoted (s : string) : string :=
  String dquote s +:+ String dquote EmptyString.

(** The challenge of Docker Hub for pulling library/alpine. *)
Definition hubChallenge : string :=
  "Bearer realm=" +:+ quoted "https://auth.docker.io/token"
  +:+ ",service=" +:+ quoted "registry.docker.io"
  +:+ ",scope=" +:+ quoted "repository:library/alpine:pull".

(** A registry that challenges every manifest request without a bearer token
    and serves the digest header to one with a token, behind a token
    endpoint that answers with the given status and body. *)
Definition hub (tokenStatus : string) (tokenCode : Z) (tokenBody : string)
  : Remote := fun _ req =>
  if strings.HasPrefix (http.URL req) "https://auth.docker.io/token" then
    OK (respond tokenStatus tokenCode [] tokenBody)
  else if strings.HasPrefix (http.Get (http.ReqHeader req) "Authorization")
            "Bearer" then
    OK (respond "200 OK" 200 [("Docker-Content-Digest", "sha256:feed")] "{}")
  else
    OK (respond "401 Unauthorized" 401 [("Www-Authenticate", hubChallenge)]
          EmptyString).

(** The manifest request of an anonymous lookup of library/alpine on Docker
    Hub, and the world it is sent in. *)
Definition alpineRequest : http.Request :=
  decorate
    {| http.Method := "GET";
       http.URL := manifestURL "registry-1.docker.io" "library/alpine" "latest";
       http.ReqHeader := ∅ |}
    "registry-1.docker.io" EmptyString EmptyString false.

Definition verifyingWorld : World :=
  {| DefaultClient_Transport := Some {| http.InsecureSkipVerify := false |};
     trace := [] |}.

Definition alpineLookup : Prog (result error string) :=
  getImageDigest rejectCTL "registry-1.docker.io" "library/alpine" "latest"
    EmptyString EmptyString false false.

Definition tokenJSON : string :=
  "{" +:+ quoted "token" +:+ ":" +:+ quoted "abc" +:+ "}".

(** The credential store key of the examples: the host as it is. *)
Definition hostKey (address : string) : string := address.

(** A reference whose registry is repeated in the repository. *)
Definition prefixedOpts : PullOpts :=
  {| Registry := "myregistry.com";
     Repository := "myregistry.com/foo/bar";
     Tag := EmptyString |}.

(** ** Definitions for the further properties *)

(** The cutset of line 203: the quote, the comma and the space. *)
Definition cutset : string := String dquote ", ".

(** A challenge written out: the scheme, a space, and the parameters as
    key=value joined by commas. *)
Definition param (kv : string * string) : string :=
  fst kv +:+ "=" +:+ snd kv.

Definition challengeOf (scheme : string) (kvs : list (string * string))
  : string :=
  scheme +:+ " " +:+ url.join (map param kvs) ",".

(** The trimmed value of the last parameter with the given key. *)
Definition lastValue (key : string) (kvs : list (string * string))
  : option string :=
  (fun kv => strings.Trim (snd kv) cutset)
    <$> last (filter (fun kv => fst kv = key) kvs).

(** What one parameter does to the map. *)
Definition store (opts : gmap string string) (kv : string * string)
  : gmap string string :=
  <[fst kv := strings.Trim (snd kv) cutset]> opts.

(** A parameter the parser keeps whole: no comma in it, no equals sign in its
    key. *)
Definition plainParam (kv : string * string) : Prop :=
  strings.Contains (fst kv) "=" = false
  /\ strings.Contains (fst kv) "," = false
  /\ strings.Contains (snd kv) "," = false.

(** A registry like [hub] whose token endpoint issues a token, but which
    answers every manifest request that carries a bearer token with 500. *)
Definition sternHub : Remote := fun _ req =>
  if strings.HasPrefix (http.URL req) "https://auth.docker.io/token" then
    OK (respond "200 OK" 200 [] tokenJSON)
  else if strings.HasPrefix (http.Get (http.ReqHeader req) "Authorization")
            "Bearer" then
    OK (respond "500 Internal Server Error" 500 [] EmptyString)
  else
    OK (respond "401 Unauthorized" 401 [("Www-Authenticate", hubChallenge)]
          EmptyString).

(** The call of line 80 ([fallback = false]) and of line 82
    ([fallback = true]) for a read of [name]. *)
Definition attempt (urlParseError : string -> option string)
  (normalizeRegistryAddress : string -> string) (name : string)
  (insecureSkipVerify : bool) (configs : gmap string AuthConfig)
  (fallback : bool) : Prog (result error string) :=
  let pullOpts := normalize (parseImageOptions name) in
  let creds :=
    credentials normalizeRegistryAddress configs (Registry pullOpts) in
  getImageDigest urlParseError (Registry pullOpts) (Repository pullOpts)
    (Tag pullOpts) (fst creds) (snd creds) insecureSkipVerify fallback.

(** A reference with a control byte, a tab, in its name. *)
Definition tabbedName : string := String "009" "alpine".

(** The number of occurrences of a byte. *)
Fixpoint count (c : ascii) (s : string) : nat :=
  match s with
  | EmptyString => 0%nat
  | String d s' => ((if Ascii.eqb c d then 1 else 0) + count c s')%nat
  end.

(** The bytes [QueryEscape] produces: the unreserved ones, the percent sign
    and the plus sign. *)
Definition escapedByte (c : ascii) : bool :=
  url.isAlnum c || strings.inCutset c "-_.~%+".

(** A byte that stands for itself in a JSON string: printable ASCII other
    than the quote and the backslash. *)
Definition plainByte (c : ascii) : bool :=
  (32 <=? code c) && (code c <? 128)
  && negb (Ascii.eqb c dquote) && negb (Ascii.eqb c "\").

(** The body of a token response that holds the token and nothing else. *)
Definition tokenBody (token : string) : string :=
  "{" +:+ quoted "token" +:+ ":" +:+ quoted token +:+ "}".

(** A Bearer challenge whose scope names two actions, pull and push, with a
    comma between them inside the quoted value. *)
Definition pushChallenge : string :=
  "Bearer realm=" +:+ quoted "https://auth.docker.io/token"
  +:+ ",service=" +:+ quoted "registry.docker.io"
  +:+ ",scope=" +:+ quoted "repository:library/alpine:pull,push".

(** A registry like [hub], with a token endpoint that issues a token, whose
    challenge is [pushChallenge]. *)
Definition pushHub : Remote := fun _ req =>
  if strings.HasPrefix (http.URL req) "https://auth.docker.io/token" then
    OK (respond "200 OK" 200 [] tokenJSON)
  else if strings.HasPrefix (http.Get (http.ReqHeader req) "Authorization")
            "Bearer" then
    OK (respond "200 OK" 200 [("Docker-Content-Digest", "sha256:feed")] "{}")
  else
    OK (respond "401 Unauthorized" 401 [("Www-Authenticate", pushChallenge)]
          EmptyString).

(** * Properties *)

(** ** The library models on known values *)

Example K_ends :
  length sha256.K = 64%nat
  /\ nth 0 sha256.K 0 = 0x428a2f98 /\ nth 63 sha256.K 0 = 0xc67178f2
  /\ sha256.h0 sha256.init = 0x6a09e667 /\ sha256.h7 sha256.init = 0x5be0cd19.
Proof. vm_compute. repeat split; reflexivity. Qed.

Example Sum256_empty :
  hex (sha256.Sum256 [])
  = "e3b0c44298fc1c149afbf4c8996fb92427ae41e4649b934ca495991b7852b855".
Proof. vm_compute. reflexivity. Qed.

Example Sum256_abc :
  hex (sha256.Sum256 (bytes_of_string "abc"))
  = "ba7816bf8f01cfea414140de5dae2223b00361a396177a9cb410ff61f20015ad".
Proof. vm_compute. reflexivity. Qed.

Example Sum256_two_blocks :
  hex (sha256.Sum256
         (bytes_of_string
            "abcdbcdecdefdefgefghfghighijhijkijkljklmklmnlmnomnopnopq"))
  = "248d6a61d20638b8e5c026930c3e6039a33ce45964ff2167f6ecedd419db06c1".
Proof. vm_compute. reflexivity. Qed.

Example base64_padding :
  b64.EncodeToString (bytes_of_string "tokenPW") = "dG9rZW5QVw=="
  /\ b64.EncodeToString (bytes_of_string "ab") = "YWI="
  /\ b64.EncodeToString (bytes_of_string "abc") = "YWJj".
Proof. vm_compute. repeat split; reflexivity. Qed.

Example QueryEscape_scope :
  url.QueryEscape "repository:foo/bar:pull a~b"
  = "repository%3Afoo%2Fbar%3Apull+a~b".
Proof. vm_compute. reflexivity. Qed.

Example canonical_keys :
  http.CanonicalMIMEHeaderKey "www-authenticate" = "Www-Authenticate"
  /\ http.CanonicalMIMEHeaderKey "a b" = "a b".
Proof. vm_compute. split; reflexivity. Qed.

Example Unmarshal_cases :
  Unmarshal (bytes_of_string tokenJSON) {| Token := EmptyString |}
  = OK {| Token := "abc" |}
  /\ Unmarshal (bytes_of_string "null") {| Token := EmptyString |}
     = OK {| Token := EmptyString |}
  /\ Unmarshal (bytes_of_string "[]") {| Token := EmptyString |}
     = Error (json.UnmarshalTypeError "array")
  /\ Unmarshal (bytes_of_string ("{" +:+ quoted "TOKEN" +:+ ": 5}"))
       {| Token := EmptyString |}
     = Error (json.UnmarshalTypeError "number")
  /\ Unmarshal (bytes_of_string "{") {| Token := EmptyString |}
     = Error json.SyntaxError.
Proof. vm_compute. repeat split; reflexivity. Qed.

(** The challenge of section 8 of the specification. *)
Example parseAuthHeader_challenge :
  map_to_list
    <$> parseAuthHeader
          ("Bearer realm=" +:+ quoted "https://auth.example/token"
           +:+ ",service=" +:+ quoted "registry.example"
           +:+ ",scope=" +:+ quoted "repository:foo/bar:pull")
  = map_to_list
      <$> Some (<["realm" := "https://auth.example/token"]>
                  (<["service" := "registry.example"]>
                     (<["scope" := "repository:foo/bar:pull"]> ∅))).
Proof. vm_compute. reflexivity. Qed.

(** The other references of section 8, through the parser modelled from the
    specification. *)
Example normalize_references :
  normalize (parseImageOptions "myregistry.com/foo/bar:1.2")
  = {| Registry := "myregistry.com"; Repository := "foo/bar"; Tag := "1.2" |}
  /\ normalize (parseImageOptions "consul:1.9")
     = {| Registry := "registry-1.docker.io"; Repository := "library/consul";
          Tag := "1.9" |}.
Proof. vm_compute. split; reflexivity. Qed.

(** ** Strings *)

Section StringFacts.

Implicit Types s t u : string.

Lemma app_nil_l s : EmptyString +:+ s = s.
Proof. reflexivity. Qed.

Lemma app_cons c s t : String c s +:+ t = String c (s +:+ t).
Proof. reflexivity. Qed.

Lemma HasPrefix_app s t : strings.HasPrefix (s +:+ t) s = true.
Proof.
  induction s as [|c s IH]; [reflexivity|].
  rewrite app_cons. simpl. rewrite Ascii.eqb_refl. exact IH.
Qed.

Lemma Index_of_prefix s t : strings.HasPrefix s t = true -> strings.Index s t = Some 0%nat.
Proof. intros H. destruct s; simpl; rewrite H; reflexivity. Qed.

Lemma drop_app s t : strings.drop (strings.len s) (s +:+ t) = t.
Proof. induction s as [|c s IH]; [reflexivity|]. rewrite app_cons. exact IH. Qed.

Lemma take_drop n s : strings.take n s +:+ strings.drop n s = s.
Proof.
  revert s. induction n as [|n IH]; intros [|c s]; try reflexivity.
  simpl. rewrite app_cons, IH. reflexivity.
Qed.

(** [Replace] with a count of one removes a leading occurrence. *)
Lemma Replace_leading old rest :
  strings.Replace (old +:+ rest) old EmptyString 1 = rest.
Proof.
  unfold strings.Replace. simpl.
  rewrite (Index_of_prefix _ _ (HasPrefix_app old rest)).
  simpl. apply drop_app.
Qed.

(** A one-byte separator: where [Index] finds it. *)
Lemma Index1_Some c s i :
  strings.Index s (String c EmptyString) = Some i ->
  s = strings.take i s +:+ String c (strings.drop (S i) s)
  /\ strings.Index (strings.take i s) (String c EmptyString) = None.
Proof.
  revert i. induction s as [|d s IH]; intros i; simpl; [discriminate|].
  destruct (Ascii.eqb c d) eqn:E; simpl.
  - intros [= <-]. apply Ascii.eqb_eq in E as ->. split; reflexivity.
  - destruct (strings.Index s (String c EmptyString)) as [j|] eqn:Ej;
      simpl; [|discriminate].
    intros [= <-]. destruct (IH j eq_refl) as [H1 H2]. simpl. split.
    + rewrite app_cons. f_equal. exact H1.
    + rewrite E. simpl. rewrite H2. reflexivity.
Qed.

Lemma Index1_app c s t :
  strings.Index s (String c EmptyString) = None ->
  strings.Index (s +:+ String c t) (String c EmptyString)
  = Some (strings.len s).
Proof.
  induction s as [|d s IH]; simpl.
  - intros _. rewrite Ascii.eqb_refl. reflexivity.
  - destruct (Ascii.eqb c d) eqn:E; simpl; [discriminate|].
    destruct (strings.Index s (String c EmptyString)) eqn:Es;
      simpl; [discriminate|].
    intros _. rewrite (IH eq_refl). reflexivity.
Qed.

Lemma drop_app_S c s t : strings.drop (strings.len s + 1) (s +:+ String c t) = t.
Proof.
  induction s as [|d s IH]; [reflexivity|]. rewrite app_cons. exact IH.
Qed.

Lemma Contains_false s t :
  strings.Contains s t = false <-> strings.Index s t = None.
Proof. unfold strings.Contains. destruct (strings.Index s t); split; congruence. Qed.

Lemma Contains_true s t :
  strings.Contains s t = true <-> is_Some (strings.Index s t).
Proof.
  unfold strings.Contains. destruct (strings.Index s t); split;
    try congruence; eauto.
  intros [? [=]].
Qed.

End StringFacts.

(** ** The challenge parser *)

Lemma parseAuthPart_defined opts part :
  is_Some (parseAuthPart opts part) <-> strings.Contains part "=" = true.
Proof.
  unfold parseAuthPart, strings.SplitN. simpl. rewrite Contains_true.
  destruct (strings.Index part "="); simpl; split; eauto;
    intros [? [=]].
Qed.

Lemma parseAuthParts_defined parts : forall opts,
  is_Some (parseAuthParts parts opts)
  <-> Forall (fun param => strings.Contains param "=" = true) parts.
Proof.
  induction parts as [|p ps IH]; intros opts; simpl.
  - split; eauto.
  - rewrite Forall_cons, <- (parseAuthPart_defined opts p).
    destruct (parseAuthPart opts p) as [o|]; simpl.
    + rewrite IH. split; [eauto | tauto].
    + split; [intros [? [=]] | intros [[? [=]] _]].
Qed.

Lemma parseAuthHeader_split header :
  parseAuthHeader header =
  match strings.Index header " " with
  | Some i =>
      parseAuthParts (strings.Split (strings.drop (i + 1) header) ",") ∅
  | None => None
  end.
Proof.
  unfold parseAuthHeader, strings.SplitN. simpl.
  destruct (strings.Index header " "); reflexivity.
Qed.

(** C10.  [parseAuthHeader] returns a map exactly when the header has a
    space and every comma-separated parameter after the scheme token (the
    text before the first space) contains an equals sign; otherwise an
    index is out of range and it panics, as it does on a header without a
    space and on a parameter without an equals sign. *)
Theorem parseAuthHeader_partial :
  (forall header,
     is_Some (parseAuthHeader header) <->
     exists scheme rest,
       header = scheme +:+ " " +:+ rest
       /\ strings.Contains scheme " " = false
       /\ Forall (fun param => strings.Contains param "=" = true)
            (strings.Split rest ","))
  /\ parseAuthHeader "Bearer" = None
  /\ parseAuthHeader "Bearer realm" = None
  /\ parseAuthHeader "Bearer realm=r,service" = None.
Proof.
  split; [|repeat split; reflexivity].
  intros header. rewrite parseAuthHeader_split. split.
  - destruct (strings.Index header " ") as [i|] eqn:Ei; [|intros [? [=]]].
    intros H. apply parseAuthParts_defined in H.
    destruct (Index1_Some _ _ _ Ei) as [Hs Hn].
    exists (strings.take i header), (strings.drop (S i) header).
    rewrite Contains_false. repeat split; try assumption.
    replace (S i) with (i + 1)%nat by lia. exact H.
  - intros (scheme & rest & -> & Hn & Hall).
    apply Contains_false in Hn.
    change (scheme +:+ " " +:+ rest) with (scheme +:+ String " " rest).
    rewrite (Index1_app _ _ rest Hn), drop_app_S.
    apply parseAuthParts_defined. exact Hall.
Qed.

(** ** Normalisation of the image reference *)

Lemma app_assoc' (s t u : string) : (s +:+ t) +:+ u = s +:+ t +:+ u.
Proof.
  induction s as [|c s IH]; [reflexivity|].
  rewrite !app_cons, IH. reflexivity.
Qed.

(** ** Where [Index] finds a substring *)

Section IndexFacts.

Implicit Types s t old pre post : string.

Lemma len_append s t : strings.len (s +:+ t) = (strings.len s + strings.len t)%nat.
Proof. induction s as [|c s IH]; simpl; [reflexivity|]. rewrite IH. reflexivity. Qed.

Lemma take_append s t : strings.take (strings.len s) (s +:+ t) = s.
Proof. induction s as [|c s IH]; simpl; [reflexivity|]. rewrite IH. reflexivity. Qed.

Lemma HasPrefix_inv s p :
  strings.HasPrefix s p = true -> s = p +:+ strings.drop (strings.len p) s.
Proof.
  revert s. induction p as [|c p IH]; intros s; [reflexivity|].
  destruct s as [|d s]; simpl; [discriminate|].
  intros H. apply andb_true_iff in H as [Hc Hp].
  apply Ascii.eqb_eq in Hc as ->. rewrite app_cons. f_equal. exact (IH _ Hp).
Qed.

Lemma drop_add (a b : nat) s :
  strings.drop (a + b) s = strings.drop b (strings.drop a s).
Proof.
  revert s. induction a as [|a IH]; intros s; [reflexivity|].
  destruct s as [|c s]; simpl; [destruct b; reflexivity|]. apply IH.
Qed.

Lemma len_take (n : nat) s : (strings.len (strings.take n s) <= n)%nat.
Proof.
  revert s. induction n as [|n IH]; intros [|c s]; simpl; try lia.
  specialize (IH s). lia.
Qed.

(** At the offset [Index] returns the substring occurs, and it occurs at no
    smaller offset. *)
Lemma Index_Some s old : forall i,
  strings.Index s old = Some i ->
  strings.HasPrefix (strings.drop i s) old = true
  /\ forall j, (j < i)%nat -> strings.HasPrefix (strings.drop j s) old = false.
Proof.
  induction s as [|c s IH]; intros i; simpl.
  - destruct (strings.HasPrefix EmptyString old) eqn:E; [|discriminate].
    intros [= <-]. split; [exact E | intros j Hj; lia].
  - destruct (strings.HasPrefix (String c s) old) eqn:E.
    + intros [= <-]. split; [exact E | intros j Hj; lia].
    + destruct (strings.Index s old) as [k|]; simpl; [|discriminate].
      intros [= <-]. destruct (IH k eq_refl) as [Hk Hlt]. split; [exact Hk|].
      intros [|j] Hj; [exact E|]. apply Hlt. lia.
Qed.

Lemma Index_None s old :
  strings.Index s old = None ->
  forall j, strings.HasPrefix (strings.drop j s) old = false.
Proof.
  induction s as [|c s IH]; simpl.
  - destruct (strings.HasPrefix EmptyString old) eqn:E; [discriminate|].
    intros _ [|j]; exact E.
  - destruct (strings.HasPrefix (String c s) old) eqn:E; [discriminate|].
    destruct (strings.Index s old); simpl; [discriminate|].
    intros _ [|j]; [exact E | apply IH; reflexivity].
Qed.

Lemma occurrence_prefix pre old post :
  strings.HasPrefix (strings.drop (strings.len pre) (pre +:+ old +:+ post)) old
  = true.
Proof. rewrite drop_app. apply HasPrefix_app. Qed.

Lemma Index_decompose s old i :
  strings.Index s old = Some i ->
  s = strings.take i s +:+ old +:+ strings.drop (i + strings.len old) s.
Proof.
  intros H. destruct (Index_Some _ _ _ H) as [Hp _].
  rewrite drop_add, <- (HasPrefix_inv _ _ Hp), take_drop. reflexivity.
Qed.

Lemma Index_first s old i pre post :
  strings.Index s old = Some i -> s = pre +:+ old +:+ post ->
  (i <= strings.len pre)%nat.
Proof.
  intros H ->. destruct (Index_Some _ _ _ H) as [_ Hlt].
  destruct (le_lt_dec i (strings.len pre)) as [|Hgt]; [assumption|].
  specialize (Hlt _ Hgt). rewrite occurrence_prefix in Hlt. discriminate.
Qed.

Lemma Index_None_absent s old pre post :
  strings.Index s old = None -> s <> pre +:+ old +:+ post.
Proof.
  intros H ->. pose proof (Index_None _ _ H (strings.len pre)) as Hn.
  rewrite occurrence_prefix in Hn. discriminate.
Qed.

(** [Replace] with a count of one removes the first occurrence, wherever it
    is. *)
Lemma Replace_first s old pre post :
  s = pre +:+ old +:+ post ->
  (forall pre' post', s = pre' +:+ old +:+ post' ->
     (strings.len pre <= strings.len pre')%nat) ->
  strings.Replace s old EmptyString 1 = pre +:+ post.
Proof.
  intros Hs Hmin. unfold strings.Replace. simpl.
  destruct (strings.Index s old) as [i|] eqn:Hi.
  2: { exfalso. exact (Index_None_absent _ _ _ _ Hi Hs). }
  pose proof (Index_first _ _ _ _ _ Hi Hs) as Hle.
  pose proof (Hmin _ _ (Index_decompose _ _ _ Hi)) as Hge.
  pose proof (len_take i s) as Ht.
  assert (i = strings.len pre) as -> by lia.
  rewrite Hs, take_append, drop_add, drop_app, drop_app. reflexivity.
Qed.

Lemma Replace_no_occurrence s old :
  (forall pre post, s <> pre +:+ old +:+ post) ->
  strings.Replace s old EmptyString 1 = s.
Proof.
  intros Hno. unfold strings.Replace. simpl.
  destruct (strings.Index s old) as [i|] eqn:Hi; [|reflexivity].
  exfalso. exact (Hno _ _ (Index_decompose _ _ _ Hi)).
Qed.

End IndexFacts.

(** C6.  Normalisation as lines 52 to 69 perform it, for every reference.
    An empty registry becomes the default host and the repository is kept.
    With a registry, a repository that starts with the registry host and a
    slash loses that prefix; more generally the first occurrence of the host
    and a slash is cut out, and a repository without one is kept.  On the
    default host the resulting repository gets the "library/" prefix when it
    has no slash, and is left as it is otherwise.  An empty tag becomes
    "latest", another tag is kept.  The reference "alpine" normalises to
    registry-1.docker.io, library/alpine, latest. *)
Theorem normalize_spec :
  (forall o : PullOpts,
     let n := normalize o in
     let host := Registry o +:+ "/" in
     (Registry o = EmptyString -> Registry n = "registry-1.docker.io")
     /\ (Registry o <> EmptyString -> Registry n = Registry o)
     /\ (forall r1,
           (Registry o = EmptyString /\ r1 = Repository o)
           \/ (Registry o <> EmptyString
               /\ Repository o = Registry o +:+ "/" +:+ r1)
           \/ (Registry o <> EmptyString
               /\ (forall pre post, Repository o <> pre +:+ host +:+ post)
               /\ r1 = Repository o)
           \/ (Registry o <> EmptyString
               /\ exists pre post,
                    Repository o = pre +:+ host +:+ post
                    /\ (forall pre' post',
                          Repository o = pre' +:+ host +:+ post' ->
                          (strings.len pre <= strings.len pre')%nat)
                    /\ r1 = pre +:+ post) ->
           (Registry n = "registry-1.docker.io" ->
            strings.Contains r1 "/" = false ->
            Repository n = "library/" +:+ r1)
           /\ (Registry n <> "registry-1.docker.io"
               \/ strings.Contains r1 "/" = true ->
               Repository n = r1))
     /\ (Tag o = EmptyString -> Tag n = "latest")
     /\ (Tag o <> EmptyString -> Tag n = Tag o))
  /\ normalize (parseImageOptions "alpine")
     = {| Registry := "registry-1.docker.io";
          Repository := "library/alpine";
          Tag := "latest" |}.
Proof.
  split; [|reflexivity].
  intros [reg repo tag]; unfold normalize; simpl.
  split; [intros ->; reflexivity|].
  split; [intros H; destruct (decide (reg = EmptyString)); congruence|].
  split.
  - intros r1 Hr1.
    assert (Hstep : (if decide (reg = EmptyString) then repo
                     else strings.Replace repo (reg +:+ "/") EmptyString 1)
                    = r1).
    { destruct Hr1 as [[-> ->]|[[Hne ->]|[(Hne & Hno & ->)|(Hne & Hocc)]]];
        [reflexivity| | |];
        (destruct (decide (reg = EmptyString)); [contradiction|]).
      - rewrite <- app_assoc'. apply Replace_leading.
      - apply Replace_no_occurrence, Hno.
      - destruct Hocc as (pre & post & Hs & Hmin & ->).
        apply Replace_first; assumption. }
    rewrite Hstep. clear Hstep Hr1. split.
    + intros Hd Hc. rewrite Hc. simpl.
      destruct (decide (_ = "registry-1.docker.io")); [reflexivity|contradiction].
    + intros [Hd|Hc].
      * destruct (decide (_ = "registry-1.docker.io")); [contradiction|reflexivity].
      * rewrite Hc. simpl. destruct (decide (_ = _)); reflexivity.
  - split; intros H; destruct (decide (tag = EmptyString)); congruence.
Qed.

(** ** The digest extractor *)

Lemma canon_digest :
  http.CanonicalMIMEHeaderKey "Docker-Content-Digest" = "Docker-Content-Digest".
Proof. reflexivity. Qed.

(** C2.  A response that carries a non-empty Docker-Content-Digest header
    has that value returned as it is: the extractor is the program that
    returns it at once, so it reads no body, whatever the body is, and
    leaves the world as it found it. *)
Theorem digest_header_verbatim (response : http.Response) (v : string)
  (vs : list string) :
  http.RespHeader response !! "Docker-Content-Digest" = Some (v :: vs) ->
  v <> EmptyString ->
  getDigestFromResponse response = Ret (OK v)
  /\ forall (remote : Remote) (w : World),
       run remote (getDigestFromResponse response) w = (Some (OK v), w).
Proof.
  intros Hh Hv.
  assert (E : getDigestFromResponse response = Ret (OK v)).
  { unfold getDigestFromResponse, http.Get. rewrite canon_digest, Hh.
    destruct (decide (v = EmptyString)); [contradiction|reflexivity]. }
  split; [exact E|]. intros remote w. rewrite E. reflexivity.
Qed.

Lemma hex_len (b : list byte) : strings.len (hex b) = (2 * length b)%nat.
Proof. induction b as [|x b IH]; simpl; [reflexivity|]. rewrite IH. lia. Qed.

Lemma hex_lower (b : list byte) : allChars isLowerHex (hex b) = true.
Proof.
  induction b as [|x b IH]; [reflexivity|].
  change (isLowerHex (digit16 lowerhex (Z_of_byte x / 16))
          && (isLowerHex (digit16 lowerhex (Z_of_byte x))
              && allChars isLowerHex (hex b)) = true).
  rewrite IH. destruct x; vm_compute; reflexivity.
Qed.

Lemma Sum256_length (data : list byte) : length (sha256.Sum256 data) = 32%nat.
Proof. reflexivity. Qed.

(** C3.  A response without a Docker-Content-Digest value whose body
    delivers [body] has the body read once and "sha256:" followed by the
    lowercase hexadecimal SHA-256 of those bytes returned, 64 digits; any
    two such responses with the same body bytes give the same result. *)
Theorem digest_of_body (response : http.Response) (body : list byte) :
  http.Get (http.RespHeader response) "Docker-Content-Digest" = EmptyString ->
  http.RespBody response = http.Delivers body ->
  (forall (remote : Remote) (w : World),
     run remote (getDigestFromResponse response) w
     = (Some (OK ("sha256:" +:+ hex (sha256.Sum256 body))),
        record w (EvReadAll (http.Delivers body))))
  /\ strings.len (hex (sha256.Sum256 body)) = 64%nat
  /\ allChars isLowerHex (hex (sha256.Sum256 body)) = true
  /\ forall response' : http.Response,
       http.Get (http.RespHeader response') "Docker-Content-Digest"
       = EmptyString ->
       http.RespBody response' = http.Delivers body ->
       getDigestFromResponse response' = getDigestFromResponse response.
Proof.
  intros Hh Hb. split; [|split; [|split]].
  - intros remote w. unfold getDigestFromResponse. rewrite Hh, Hb.
    reflexivity.
  - rewrite hex_len, Sum256_length. reflexivity.
  - apply hex_lower.
  - intros response' Hh' Hb'. unfold getDigestFromResponse.
    rewrite Hh, Hb, Hh', Hb'. reflexivity.
Qed.

(** ** Decoding the token *)

Lemma storeMember_error (acc : TokenResponse * option json.error)
  (m : string * json.value) :
  is_Some (snd (storeMember acc m))
  <-> is_Some (snd acc) \/ badMember m = true.
Proof.
  destruct acc as [t e], m as [k v]. unfold storeMember, badMember.
  cbn [fst snd].
  destruct (json.equalFoldRight "Token" k); cbn [andb];
    [destruct v|]; cbn [snd];
    (split; [intros H | intros [H|H]]); eauto; try discriminate;
    destruct e; eauto.
Qed.

Lemma fold_storeMember_error (ms : list (string * json.value)) :
  forall acc,
    is_Some (snd (fold_left storeMember ms acc))
    <-> is_Some (snd acc) \/ existsb badMember ms = true.
Proof.
  induction ms as [|m ms IH]; intros acc; cbn [fold_left existsb].
  - split; [tauto | intros [H|H]; [exact H|discriminate]].
  - rewrite IH, storeMember_error, orb_true_iff. tauto.
Qed.

(** [Unmarshal] fails exactly on input that is not JSON or is of the wrong
    type. *)
Lemma Unmarshal_rejects (data : list byte) (t : TokenResponse) :
  (exists e, Unmarshal data t = Error e)
  <-> json.parse (string_of_bytes data) = None
      \/ exists v, json.parse (string_of_bytes data) = Some v
                   /\ typeMismatch v = true.
Proof.
  unfold Unmarshal.
  destruct (json.parse (string_of_bytes data)) as [v|]; [|split; eauto].
  transitivity (typeMismatch v = true);
    [|split; [eauto | intros [[=]|(v' & [= <-] & H)]; exact H]].
  destruct v as [|b|n|s|l|ms]; cbn [typeMismatch];
    try (split; [reflexivity | eauto]).
  - split; [intros [? [=]] | discriminate].
  - pose proof (fold_storeMember_error ms (t, None)) as H. cbn [snd] in H.
    destruct (fold_left storeMember ms (t, None)) as [t' [e|]]; cbn [snd] in H.
    + split; [intros _ | eauto].
      destruct H as [[[? [=]]|H] _]; eauto.
    + split; [intros [? [=]] |].
      intros Hb. destruct H as [_ H]. destruct (H (or_intror Hb)) as [? [=]].
Qed.

(** An object without a member for the field decodes, and leaves the
    token as it was. *)
Lemma Unmarshal_missing_member (data : list byte) (t : TokenResponse)
  (ms : list (string * json.value)) :
  json.parse (string_of_bytes data) = Some (json.Object ms) ->
  Forall (fun m => json.equalFoldRight "Token" (fst m) = false) ms ->
  Unmarshal data t = OK t.
Proof.
  intros Hp Hall. unfold Unmarshal. rewrite Hp. clear Hp.
  assert (E : fold_left storeMember ms (t, None) = (t, None)).
  { induction Hall as [|[k v] ms Hk _ IH]; [reflexivity|].
    cbn [fold_left storeMember fst] in *. rewrite Hk. exact IH. }
  rewrite E. reflexivity.
Qed.


(** ** Running programs *)

Section RunFacts.

Variable remote : Remote.

Lemma run_bind {A B : Type} (p : Prog A) (f : A -> Prog B) : forall w,
  run remote (bind p f) w =
  match run remote p w with
  | (Some a, w') => run remote (f a) w'
  | (None, w') => (None, w')
  end.
Proof.
  induction p as [a| |t k IH|req k IH|b k IH]; intros w; simpl;
    try reflexivity; auto.
Qed.

Lemma sent_app (l1 l2 : list Event) : sent (l1 ++ l2) = sent l1 ++ sent l2.
Proof.
  induction l1 as [|[v r|b] l1 IH]; simpl; [reflexivity| |exact IH].
  rewrite IH. reflexivity.
Qed.

Lemma bodiesRead_app (l1 l2 : list Event) :
  bodiesRead (l1 ++ l2) = bodiesRead l1 ++ bodiesRead l2.
Proof.
  induction l1 as [|[v r|b] l1 IH]; simpl; [reflexivity|exact IH|].
  rewrite IH. reflexivity.
Qed.

(** The extractor sends nothing. *)
Lemma getDigestFromResponse_sends_nothing (response : http.Response) w :
  sent (trace (snd (run remote (getDigestFromResponse response) w)))
  = sent (trace w).
Proof.
  unfold getDigestFromResponse.
  destruct (decide (_ = EmptyString)); [|reflexivity].
  simpl. destruct (readAll _); simpl; rewrite sent_app; simpl;
    apply app_nil_r.
Qed.

(** The extractor never fails with a token error. *)
Lemma getDigestFromResponse_kind (response : http.Response) w e :
  fst (run remote (getDigestFromResponse response) w) = Some (Error e) ->
  kind e = BodyReadError.
Proof.
  unfold getDigestFromResponse.
  destruct (decide (_ = EmptyString)); [|discriminate].
  simpl. destruct (readAll _); simpl; [discriminate|].
  intros [= <-]. reflexivity.
Qed.

Lemma getDigestFromResponse_returns (response : http.Response) w :
  is_Some (fst (run remote (getDigestFromResponse response) w)).
Proof.
  unfold getDigestFromResponse.
  destruct (decide (_ = EmptyString)); [|simpl; eauto].
  simpl. destruct (readAll _); simpl; eauto.
Qed.

End RunFacts.

(** ** Headers *)

Lemma canon_Authorization :
  http.CanonicalMIMEHeaderKey "Authorization" = "Authorization".
Proof. reflexivity. Qed.

Lemma canon_Accept : http.CanonicalMIMEHeaderKey "Accept" = "Accept".
Proof. reflexivity. Qed.

Lemma Set_lookup (h : http.Header) (key value : string) :
  http.Set_ h key value !! http.CanonicalMIMEHeaderKey key = Some [value].
Proof. unfold http.Set_. apply lookup_insert_eq. Qed.

Lemma Set_lookup_ne (h : http.Header) (key value key' : string) :
  http.CanonicalMIMEHeaderKey key ≠ key' ->
  http.Set_ h key value !! key' = h !! key'.
Proof. intros H. unfold http.Set_. apply lookup_insert_ne. exact H. Qed.

Lemma Add_lookup_ne (h : http.Header) (key value key' : string) :
  http.CanonicalMIMEHeaderKey key ≠ key' ->
  http.Add h key value !! key' = h !! key'.
Proof. intros H. unfold http.Add. apply lookup_insert_ne. exact H. Qed.

Lemma Add_lookup (h : http.Header) (key value : string) :
  http.Add h key value !! http.CanonicalMIMEHeaderKey key
  = Some (default [] (h !! http.CanonicalMIMEHeaderKey key) ++ [value]).
Proof. unfold http.Add. apply lookup_insert_eq. Qed.

(** The Accept lines leave the Authorization header alone. *)
Lemma accept_keeps_authorization (h : http.Header) (fallback : bool) :
  let h' := fold_left (fun h v => http.Add h "Accept" v) mediaTypes h in
  (if fallback then http.Set_ h' "Accept" legacyMediaType else h')
    !! "Authorization" = h !! "Authorization".
Proof.
  simpl. destruct fallback.
  - rewrite Set_lookup_ne by (rewrite canon_Accept; discriminate).
    rewrite !Add_lookup_ne by (rewrite canon_Accept; discriminate).
    reflexivity.
  - rewrite !Add_lookup_ne by (rewrite canon_Accept; discriminate).
    reflexivity.
Qed.

Section ProviderFacts.

Variable urlParseError : string -> option string.

Lemma decorate_authorization (req : http.Request)
  (registry username password : string) (fallback : bool) :
  http.ReqHeader (decorate req registry username password fallback)
    !! "Authorization" =
  if decide (username ≠ EmptyString) then
    if decide (registry ≠ "ghcr.io") then
      Some ["Basic " +:+ http.basicAuth username password]
    else
      Some (default [] (http.ReqHeader req !! "Authorization")
            ++ ["Bearer " +:+ b64.EncodeToString (bytes_of_string password)])
  else http.ReqHeader req !! "Authorization".
Proof.
  unfold decorate.
  set (req1 := if decide (username ≠ EmptyString) then _ else _).
  transitivity (http.ReqHeader req1 !! "Authorization").
  - pose proof (accept_keeps_authorization (http.ReqHeader req1) fallback) as H.
    simpl in H. destruct fallback; simpl; exact H.
  - subst req1. destruct (decide (username ≠ EmptyString)); [|reflexivity].
    destruct (decide (registry ≠ "ghcr.io")); simpl.
    + rewrite <- canon_Authorization at 2. apply Set_lookup.
    + rewrite <- canon_Authorization at 1. rewrite Add_lookup.
      rewrite canon_Authorization. reflexivity.
Qed.

Lemma decorate_url (req : http.Request) (registry username password : string)
  (fallback : bool) :
  http.URL (decorate req registry username password fallback) = http.URL req
  /\ http.Method (decorate req registry username password fallback)
     = http.Method req.
Proof.
  unfold decorate.
  destruct fallback, (decide (username ≠ EmptyString)),
    (decide (registry ≠ "ghcr.io")); split; reflexivity.
Qed.

(** The start of [getImageDigest]: the transport, then the manifest
    request, then the switch on its answer. *)
Lemma getImageDigest_unfold (registry image tag username password : string)
  (insecureSkipVerify fallback : bool) (req0 : http.Request) :
  NewRequest urlParseError "GET" (manifestURL registry image tag) = OK req0 ->
  let req := decorate req0 registry username password fallback in
  getImageDigest urlParseError registry image tag username password
    insecureSkipVerify fallback
  = SetTransport {| http.InsecureSkipVerify := insecureSkipVerify |}
      (Do req (fun resp =>
                 match resp with
                 | Error err => Ret (Error (ErrDuringRequest err))
                 | OK resp =>
                     dispatch urlParseError req resp username password
                 end)).
Proof.
  intros H. unfold getImageDigest. rewrite H. reflexivity.
Qed.

(** C5, amended.  The manifest request that [getImageDigest] sends is a GET
    of the manifest URL.  With a non-empty user name it carries one
    Authorization value: for ghcr.io "Bearer " and the standard base64 of the
    password, for every other host the basic-auth value of user name and
    password.  With an empty user name it carries no Authorization header,
    whatever the password and the host. *)
Theorem manifest_request_authorization
  (registry image tag username password : string)
  (insecureSkipVerify fallback : bool) :
  urlParseError (manifestURL registry image tag) = None ->
  exists req k,
    getImageDigest urlParseError registry image tag username password
      insecureSkipVerify fallback
    = SetTransport {| http.InsecureSkipVerify := insecureSkipVerify |}
        (Do req k)
    /\ http.Method req = "GET"
    /\ http.URL req = manifestURL registry image tag
    /\ (username <> EmptyString -> registry = "ghcr.io" ->
        http.ReqHeader req !! "Authorization"
        = Some ["Bearer " +:+ b64.EncodeToString (bytes_of_string password)])
    /\ (username <> EmptyString -> registry <> "ghcr.io" ->
        http.ReqHeader req !! "Authorization"
        = Some ["Basic " +:+ b64.EncodeToString
                               (bytes_of_string
                                  (username +:+ ":" +:+ password))])
    /\ (username = EmptyString ->
        http.ReqHeader req !! "Authorization" = None).
Proof.
  intros Hurl.
  assert (Hnew : NewRequest urlParseError "GET" (manifestURL registry image tag)
                 = OK {| http.Method := "GET";
                         http.URL := manifestURL registry image tag;
                         http.ReqHeader := ∅ |}).
  { unfold NewRequest. rewrite Hurl. reflexivity. }
  eexists. eexists. split.
  { apply (getImageDigest_unfold _ _ _ _ _ _ _ _ Hnew). }
  destruct (decorate_url {| http.Method := "GET";
                            http.URL := manifestURL registry image tag;
                            http.ReqHeader := ∅ |}
              registry username password fallback) as [-> ->].
  split; [reflexivity|]. split; [reflexivity|].
  rewrite decorate_authorization.
  destruct (decide (username ≠ EmptyString)) as [Hu|Hu].
  - split; [|split]; [intros _ Hr|intros _ Hr|intros He; contradiction];
      destruct (decide (registry ≠ "ghcr.io")); try contradiction; reflexivity.
  - split; [|split]; [intros H; contradiction|intros H; contradiction|].
    intros _. reflexivity.
Qed.

(** With an empty user name the manifest request carries no Authorization
    header, whatever the password and the host. *)
Lemma anonymous_request_unauthorized (registry image tag password : string)
  (insecureSkipVerify fallback : bool) :
  urlParseError (manifestURL registry image tag) = None ->
  exists req k,
    getImageDigest urlParseError registry image tag EmptyString password
      insecureSkipVerify fallback
    = SetTransport {| http.InsecureSkipVerify := insecureSkipVerify |}
        (Do req k)
    /\ http.ReqHeader req !! "Authorization" = None.
Proof.
  intros Hurl.
  assert (Hnew : NewRequest urlParseError "GET" (manifestURL registry image tag)
                 = OK {| http.Method := "GET";
                         http.URL := manifestURL registry image tag;
                         http.ReqHeader := ∅ |}).
  { unfold NewRequest. rewrite Hurl. reflexivity. }
  eexists. eexists. split.
  { apply (getImageDigest_unfold _ _ _ _ _ _ _ _ Hnew). }
  rewrite decorate_authorization. reflexivity.
Qed.

(** [Values.Encode] sorts by key: the scope comes before the service. *)
Lemma Encode_tokenParams (auth : gmap string string) :
  url.Encode (tokenParams auth)
  = "scope=" +:+ url.QueryEscape (at_ auth "scope")
    +:+ "&service=" +:+ url.QueryEscape (at_ auth "service").
Proof.
  unfold tokenParams.
  generalize (at_ auth "service") (at_ auth "scope"). intros a b.
  reflexivity.
Qed.

(** C7, amended.  For a challenge that parses, the token request is a GET
    of the realm followed by "?scope=", the escaped scope, "&service=" and
    the escaped service, the parameters in the key order of
    [Values.Encode]; it carries the basic-auth Authorization header when
    the user name is not empty and no header at all when it is. *)
Theorem token_request_shape (req : http.Request)
  (challenge username password : string) (auth : gmap string string) :
  parseAuthHeader challenge = Some auth ->
  let tokenURL' :=
    at_ auth "realm" +:+ "?scope=" +:+ url.QueryEscape (at_ auth "scope")
    +:+ "&service=" +:+ url.QueryEscape (at_ auth "service") in
  urlParseError tokenURL' = None ->
  exists tokenRequest k,
    handshake urlParseError req challenge username password
    = Do tokenRequest k
    /\ http.Method tokenRequest = "GET"
    /\ http.URL tokenRequest = tokenURL'
    /\ (username <> EmptyString ->
        http.ReqHeader tokenRequest
        = {[ "Authorization" :=
               ["Basic " +:+ b64.EncodeToString
                               (bytes_of_string
                                  (username +:+ ":" +:+ password))] ]})
    /\ (username = EmptyString -> http.ReqHeader tokenRequest = ∅).
Proof.
  intros Hparse tokenURL' Hurl.
  assert (HU : tokenURL auth = tokenURL').
  { unfold tokenURL, tokenURL'. rewrite Encode_tokenParams. reflexivity. }
  unfold handshake. rewrite Hparse. unfold NewRequest. rewrite HU, Hurl.
  eexists. eexists. split; [reflexivity|].
  unfold withCredentials.
  destruct (decide (username ≠ EmptyString)) as [Hne|He]; simpl.
  - repeat split; try reflexivity. intros ->. contradiction.
  - repeat split; try reflexivity. intros Hne. contradiction.
Qed.
(** *** The handshake, run *)

Section Handshake.

Variable remote : Remote.

Lemma run_handshake (req : http.Request) (challenge username password : string)
  (auth : gmap string string) (tokenRequest0 : http.Request) (w : World) :
  parseAuthHeader challenge = Some auth ->
  NewRequest urlParseError "GET" (tokenURL auth) = OK tokenRequest0 ->
  let tokenRequest := withCredentials tokenRequest0 username password in
  let w1 := record w (EvDo (DefaultClient_Transport w) tokenRequest) in
  run remote (handshake urlParseError req challenge username password) w =
  match remote w tokenRequest with
  | Error err => (Some (Error (ErrDuringRequest err)), w1)
  | OK tokenResponse =>
      if negb (http.StatusCode tokenResponse =? http.StatusOK) then
        (Some (Error (ErrBadResponse (http.Status tokenResponse))), w1)
      else
        let w2 := record w1 (EvReadAll (http.RespBody tokenResponse)) in
        match readAll (http.RespBody tokenResponse) with
        | Error err => (Some (Error (ErrReadingBody err)), w2)
        | OK body =>
            match Unmarshal body {| Token := EmptyString |} with
            | Error err => (Some (Error (ErrParsingToken err)), w2)
            | OK token => run remote (retry req token) w2
            end
        end
  end.
Proof.
  intros Hparse Hnew. unfold handshake. rewrite Hparse, Hnew. simpl.
  destruct (remote w _) as [tokenResponse|err]; [|reflexivity]. simpl.
  destruct (negb (http.StatusCode tokenResponse =? http.StatusOK));
    [reflexivity|]. simpl.
  destruct (readAll (http.RespBody tokenResponse)) as [body|err];
    [|reflexivity]. simpl.
  destruct (Unmarshal body _) as [token|err]; reflexivity.
Qed.

Lemma retry_sent (req : http.Request) (token : TokenResponse) (w : World) :
  sent (trace (snd (run remote (retry req token) w)))
  = sent (trace w) ++ [withBearer req token].
Proof.
  unfold retry. simpl.
  destruct (remote w _) as [dr|err]; simpl; [|apply sent_app].
  destruct (negb (http.StatusCode dr =? http.StatusOK)); simpl;
    [apply sent_app|].
  rewrite getDigestFromResponse_sends_nothing. simpl. apply sent_app.
Qed.

Lemma retry_kind (req : http.Request) (token : TokenResponse) (w : World)
  (e : error) :
  fst (run remote (retry req token) w) = Some (Error e) ->
  kind e <> TokenParseError.
Proof.
  unfold retry. simpl.
  destruct (remote w _) as [dr|err]; simpl; [|intros [= <-]; discriminate].
  destruct (negb (http.StatusCode dr =? http.StatusOK)); simpl;
    [intros [= <-]; discriminate|].
  intros H. apply getDigestFromResponse_kind in H. rewrite H. discriminate.
Qed.

Lemma retry_returns (req : http.Request) (token : TokenResponse) (w : World) :
  is_Some (fst (run remote (retry req token) w)).
Proof.
  unfold retry. simpl.
  destruct (remote w _) as [dr|err]; simpl; eauto.
  destruct (negb (http.StatusCode dr =? http.StatusOK)); simpl; eauto.
  apply getDigestFromResponse_returns.
Qed.

End Handshake.

Lemma withBearer_header (req : http.Request) (token : TokenResponse) :
  http.ReqHeader (withBearer req token) !! "Authorization"
  = Some ["Bearer " +:+ Token token]
  /\ (forall key, key <> "Authorization" ->
        http.ReqHeader (withBearer req token) !! key
        = http.ReqHeader req !! key)
  /\ http.URL (withBearer req token) = http.URL req
  /\ http.Method (withBearer req token) = http.Method req.
Proof.
  unfold withBearer. simpl. split; [|split; [|split; reflexivity]].
  - rewrite <- canon_Authorization at 2. apply Set_lookup.
  - intros key Hk. apply Set_lookup_ne. rewrite canon_Authorization.
    congruence.
Qed.

(** C8, amended.  When the token endpoint answers 200 and its body is
    delivered, the handshake fails with a token parse error exactly when
    [json.Unmarshal] rejects the body: it is not JSON, or it is of the
    wrong type (a top-level value that is neither an object nor null, or a
    member for the token field that is neither a string nor null).  An
    object without a token member is accepted and leaves the token empty.
    When the body is accepted the manifest request is sent again with the one
    Authorization value "Bearer " and the token, in place of any earlier
    value, its other headers and its URL unchanged. *)
Theorem token_response_decoding (remote : Remote) (w : World)
  (req : http.Request) (challenge username password : string)
  (auth : gmap string string) (tokenRequest0 : http.Request)
  (tokenResponse : http.Response) (body : list byte) :
  parseAuthHeader challenge = Some auth ->
  NewRequest urlParseError "GET" (tokenURL auth) = OK tokenRequest0 ->
  let tokenRequest := withCredentials tokenRequest0 username password in
  remote w tokenRequest = OK tokenResponse ->
  http.StatusCode tokenResponse = http.StatusOK ->
  http.RespBody tokenResponse = http.Delivers body ->
  let out :=
    run remote (handshake urlParseError req challenge username password) w in
  ((exists e, fst out = Some (Error e) /\ kind e = TokenParseError)
   <-> json.parse (string_of_bytes body) = None
       \/ exists v, json.parse (string_of_bytes body) = Some v
                    /\ typeMismatch v = true)
  /\ (forall ms,
        json.parse (string_of_bytes body) = Some (json.Object ms) ->
        Forall (fun m => json.equalFoldRight "Token" (fst m) = false) ms ->
        Unmarshal body {| Token := EmptyString |}
        = OK {| Token := EmptyString |})
  /\ (forall token,
        Unmarshal body {| Token := EmptyString |} = OK token ->
        sent (trace (snd out))
        = sent (trace w) ++ [tokenRequest; withBearer req token]
        /\ http.ReqHeader (withBearer req token) !! "Authorization"
           = Some ["Bearer " +:+ Token token]
        /\ (forall key, key <> "Authorization" ->
              http.ReqHeader (withBearer req token) !! key
              = http.ReqHeader req !! key)
        /\ http.URL (withBearer req token) = http.URL req).
Proof.
  intros Hparse Hnew tokenRequest Hans Hcode Hbody out.
  assert (Hout : out =
                 match Unmarshal body {| Token := EmptyString |} with
                 | Error err =>
                     (Some (Error (ErrParsingToken err)),
                      record (record w (EvDo (DefaultClient_Transport w)
                                          tokenRequest))
                        (EvReadAll (http.Delivers body)))
                 | OK token =>
                     run remote (retry req token)
                       (record (record w (EvDo (DefaultClient_Transport w)
                                            tokenRequest))
                          (EvReadAll (http.Delivers body)))
                 end).
  { subst out.
    rewrite (run_handshake remote req challenge username password auth
               tokenRequest0 w Hparse Hnew).
    fold tokenRequest. rewrite Hans, Hcode, Hbody. reflexivity. }
  split; [|split].
  - rewrite <- (Unmarshal_rejects body {| Token := EmptyString |}).
    rewrite Hout.
    destruct (Unmarshal body _) as [token|err]; simpl.
    + split; [|intros [? [=]]].
      intros (e & He & Hk). exfalso. exact (retry_kind _ _ _ _ _ He Hk).
    + split; eauto.
  - intros ms Hp Hall. exact (Unmarshal_missing_member _ _ ms Hp Hall).
  - intros token Htok. rewrite Hout, Htok.
    destruct (withBearer_header req token) as (Ha & Hk & Hu & _).
    repeat split; try assumption.
    rewrite retry_sent. simpl. rewrite !sent_app. simpl.
    rewrite <- !app_assoc. reflexivity.
Qed.


(** From the manifest request to the switch on its answer. *)
Lemma run_getImageDigest (remote : Remote) (w : World)
  (registry image tag username password : string)
  (insecureSkipVerify fallback : bool) (req0 : http.Request) :
  NewRequest urlParseError "GET" (manifestURL registry image tag) = OK req0 ->
  let req := decorate req0 registry username password fallback in
  let transport := Some {| http.InsecureSkipVerify := insecureSkipVerify |} in
  let w0 := {| DefaultClient_Transport := transport; trace := trace w |} in
  run remote
    (getImageDigest urlParseError registry image tag username password
       insecureSkipVerify fallback) w
  = match remote w0 req with
    | Error err =>
        (Some (Error (ErrDuringRequest err)), record w0 (EvDo transport req))
    | OK resp =>
        run remote (dispatch urlParseError req resp username password)
          (record w0 (EvDo transport req))
    end.
Proof.
  intros Hnew req transport w0.
  rewrite (getImageDigest_unfold _ _ _ _ _ _ fallback _ Hnew). simpl.
  fold req. fold transport. fold w0.
  destruct (remote w0 req); reflexivity.
Qed.



Lemma decorate_accept_fallback (req : http.Request)
  (registry username password : string) :
  http.ReqHeader (decorate req registry username password true) !! "Accept"
  = Some [legacyMediaType].
Proof.
  unfold decorate. cbv beta iota zeta.
  generalize (fold_left (fun h v => http.Add h "Accept" v) mediaTypes).
  intros f. cbn [http.withHeader http.ReqHeader].
  rewrite <- canon_Accept at 2. apply Set_lookup.
Qed.

Section Read.

Variable normalizeRegistryAddress : string -> string.

(** X18.  When the first attempt, with the modern media types, returns an
    error, the read runs [getImageDigest] a second time with the fallback
    flag, in the world the first attempt left, and what it returns decides
    the outcome: its digest, or the diagnostic carrying its error, not the
    first one's.  The second attempt is the call a fresh lookup would make:
    it takes nothing from the first but the arguments, it does not depend on
    the transport the first left in the default client, and its manifest
    request accepts the legacy media type only. *)
Theorem fallback_after_failure (remote : Remote) (w w1 : World)
  (name : string) (insecureSkipVerify : bool)
  (configs : gmap string AuthConfig) (e1 : error) :
  let pullOpts := normalize (parseImageOptions name) in
  let creds :=
    credentials normalizeRegistryAddress configs (Registry pullOpts) in
  let attempt (fallback : bool) :=
    getImageDigest urlParseError (Registry pullOpts) (Repository pullOpts)
      (Tag pullOpts) (fst creds) (snd creds) insecureSkipVerify fallback in
  run remote (attempt false) w = (Some (Error e1), w1) ->
  run remote
    (dataSourceDockerRegistryImageRead urlParseError normalizeRegistryAddress
       name insecureSkipVerify configs) w
  = match run remote (attempt true) w1 with
    | (Some (OK digest), w2) => (Some (ReadOK digest digest), w2)
    | (Some (Error e2), w2) =>
        (Some (ReadErrorf (Repository pullOpts) (Tag pullOpts) e2), w2)
    | (None, w2) => (None, w2)
    end
  /\ (forall t,
        run remote (attempt true)
          {| DefaultClient_Transport := t; trace := trace w1 |}
        = run remote (attempt true) w1)
  /\ (forall req0,
        NewRequest urlParseError "GET"
          (manifestURL (Registry pullOpts) (Repository pullOpts)
             (Tag pullOpts)) = OK req0 ->
        exists req k,
          attempt true
          = SetTransport {| http.InsecureSkipVerify := insecureSkipVerify |}
              (Do req k)
          /\ req = decorate req0 (Registry pullOpts) (fst creds) (snd creds)
                     true
          /\ http.ReqHeader req !! "Accept" = Some [legacyMediaType]).
Proof.
  intros pullOpts creds attempt H1. split; [|split].
  - unfold dataSourceDockerRegistryImageRead. fold pullOpts. fold creds.
    subst attempt. destruct creds as [username password].
    cbn [fst snd] in *. unfold mbind, Prog_bind, mret, Prog_ret.
    rewrite run_bind, H1, run_bind.
    destruct (run remote _ w1) as [[[digest|e2]|] w2]; reflexivity.
  - intros t. reflexivity.
  - intros req0 Hnew. eexists. eexists. split; [|split; [reflexivity|]].
    + apply (getImageDigest_unfold _ _ _ _ _ _ _ _ Hnew).
    + apply decorate_accept_fallback.
Qed.

End Read.

(** *** The transport a call sends through *)

Ltac split_program :=
  repeat (simpl; intros;
          match goal with
          | |- True => exact I
          | |- context [match ?x with _ => _ end] => destruct x
          end).

Lemma getDigestFromResponse_transportFree (response : http.Response) :
  transportFree (getDigestFromResponse response).
Proof. unfold getDigestFromResponse. split_program. Qed.

Lemma dispatch_transportFree (req : http.Request) (resp : http.Response)
  (username password : string) :
  transportFree (dispatch urlParseError req resp username password).
Proof.
  pose proof getDigestFromResponse_transportFree as Hd.
  unfold dispatch, handshake, retry, NewRequest.
  destruct (http.StatusCode resp =? http.StatusOK); [apply Hd|].
  destruct (http.StatusCode resp =? http.StatusUnauthorized); [|exact I].
  destruct (strings.HasPrefix _ _); [|exact I].
  destruct (parseAuthHeader _) as [auth|]; [|exact I].
  destruct (urlParseError _); [exact I|].
  simpl. intros [tr|err]; [|exact I]. simpl.
  destruct (negb _); [exact I|].
  simpl. intros [body|err]; [|exact I]. simpl.
  destruct (Unmarshal body _) as [token|err]; [|exact I].
  simpl. intros [dr|err]; [|exact I]. simpl.
  destruct (negb _); [exact I|apply Hd].
Qed.

(** A program that does not assign the transport sends every request
    through the transport it found, and leaves it in place. *)
Lemma run_transportFree (remote : Remote) {A : Type} (p : Prog A) :
  transportFree p ->
  forall w,
    DefaultClient_Transport (snd (run remote p w)) = DefaultClient_Transport w
    /\ exists new,
         trace (snd (run remote p w)) = trace w ++ new
         /\ Forall (sentVia (DefaultClient_Transport w)) new.
Proof.
  induction p as [a| |t k IH|req k IH|b k IH]; simpl; intros Hp w.
  - split; [reflexivity|]. exists []. rewrite app_nil_r. split; constructor.
  - split; [reflexivity|]. exists []. rewrite app_nil_r. split; constructor.
  - contradiction.
  - destruct (IH _ (Hp (remote w req))
                (record w (EvDo (DefaultClient_Transport w) req)))
      as (Ht & new & Hn & Hall).
    split; [exact Ht|].
    exists (EvDo (DefaultClient_Transport w) req :: new). split.
    + rewrite Hn. simpl. rewrite <- app_assoc. reflexivity.
    + constructor; [reflexivity | exact Hall].
  - destruct (IH _ (Hp (readAll b)) (record w (EvReadAll b)))
      as (Ht & new & Hn & Hall).
    split; [exact Ht|].
    exists (EvReadAll b :: new). split.
    + rewrite Hn. simpl. rewrite <- app_assoc. reflexivity.
    + constructor; [exact I | exact Hall].
Qed.

(** Run on its own, a call sends its requests through the transport built
    from its own flag, and leaves that transport in the shared default
    client. *)
Lemma getImageDigest_own_transport (remote : Remote) (w : World)
  (registry image tag username password : string)
  (insecureSkipVerify fallback : bool) :
  let out :=
    run remote
      (getImageDigest urlParseError registry image tag username password
         insecureSkipVerify fallback) w in
  let transport := Some {| http.InsecureSkipVerify := insecureSkipVerify |} in
  DefaultClient_Transport (snd out) = transport
  /\ exists new,
       trace (snd out) = trace w ++ new /\ Forall (sentVia transport) new.
Proof.
  intros out transport. subst out.
  destruct (urlParseError (manifestURL registry image tag)) as [err|] eqn:Hurl.
  { unfold getImageDigest, NewRequest. rewrite Hurl. simpl.
    split; [reflexivity|]. exists []. rewrite app_nil_r. split; constructor. }
  assert (Hnew : NewRequest urlParseError "GET" (manifestURL registry image tag)
                 = OK {| http.Method := "GET";
                         http.URL := manifestURL registry image tag;
                         http.ReqHeader := ∅ |}).
  { unfold NewRequest. rewrite Hurl. reflexivity. }
  rewrite (run_getImageDigest remote w _ _ _ _ _ insecureSkipVerify fallback
             _ Hnew).
  cbv zeta. fold transport.
  set (req := decorate _ _ _ _ _).
  set (w0 := {| DefaultClient_Transport := transport; trace := trace w |}).
  destruct (remote w0 req) as [resp|err].
  - destruct (run_transportFree remote _
                (dispatch_transportFree req resp username password)
                (record w0 (EvDo transport req))) as (Ht & new & Hn & Hall).
    split; [exact Ht|]. exists (EvDo transport req :: new). split.
    + rewrite Hn. simpl. rewrite <- app_assoc. reflexivity.
    + constructor; [reflexivity | exact Hall].
  - split; [reflexivity|]. exists [EvDo transport req].
    split; [reflexivity|]. constructor; [reflexivity | constructor].
Qed.
End ProviderFacts.

(** ** The transport of the default client *)

(** C9.  The flag is not confined to the call.  Every call writes it into
    the transport of the process-wide default client and leaves it there;
    and when two lookups run side by side, the request of the lookup that
    asked for verification can leave through the transport of the lookup
    that disabled it. *)
Theorem transport_flag_is_global :
  (forall (urlParseError : string -> option string) (remote : Remote)
          (w : World) (registry image tag username password : string)
          (insecureSkipVerify fallback : bool),
     DefaultClient_Transport
       (snd (run remote
               (getImageDigest urlParseError registry image tag username
                  password insecureSkipVerify fallback) w))
     = Some {| http.InsecureSkipVerify := insecureSkipVerify |})
  /\ (forall remote : Remote,
        let verifying :=
          getImageDigest rejectCTL "registry-1.docker.io" "library/alpine"
            "latest" EmptyString EmptyString false false in
        let skipping :=
          getImageDigest rejectCTL "registry.internal" "team/app" "v1"
            EmptyString EmptyString true false in
        exists req,
          trace (snd (interleave remote [true; false; true]
                        verifying skipping initial))
          = [EvDo (Some {| http.InsecureSkipVerify := true |}) req]
          /\ http.URL req
             = "https://registry-1.docker.io/v2/library/alpine/manifests/latest").
Proof.
  split.
  - intros. apply getImageDigest_own_transport.
  - intros remote. eexists. split; reflexivity.
Qed.

(** ** The theorems at concrete inputs *)


Lemma digest_header_verbatim_witness :
  let response :=
    respond "200 OK" 200 [("Docker-Content-Digest", "sha256:feed")] "{}" in
  http.RespHeader response !! "Docker-Content-Digest" = Some ["sha256:feed"]
  /\ getDigestFromResponse response = Ret (OK "sha256:feed").
Proof.
  assert (H : http.RespHeader
                (respond "200 OK" 200
                   [("Docker-Content-Digest", "sha256:feed")] "{}")
              !! "Docker-Content-Digest" = Some ["sha256:feed"])
    by (vm_compute; reflexivity).
  split; [exact H|].
  apply (digest_header_verbatim _ "sha256:feed" [] H). discriminate.
Defined.

Lemma digest_of_body_witness :
  run (hub "200 OK" 200 tokenJSON)
    (getDigestFromResponse (respond "200 OK" 200 [] "{}")) initial
  = (Some (OK "sha256:44136fa355b3678a1146ad16f7e8649e94fb4fc21fe77e8310c060f61caaff8a"),
     record initial (EvReadAll (http.Delivers (bytes_of_string "{}")))).
Proof.
  destruct (digest_of_body (respond "200 OK" 200 [] "{}")
              (bytes_of_string "{}") eq_refl eq_refl) as [H _].
  rewrite H. vm_compute. reflexivity.
Defined.

Lemma fallback_after_failure_witness :
  fst (run (hub "403 Forbidden" 403 EmptyString)
         (dataSourceDockerRegistryImageRead rejectCTL hostKey "alpine" false ∅)
         initial)
  = Some (ReadErrorf "library/alpine" "latest"
            (ErrBadResponse "403 Forbidden")).
Proof.
  set (remote := hub "403 Forbidden" 403 EmptyString).
  pose (w1 := snd (run remote alpineLookup initial)).
  assert (H1 : run remote
                 (getImageDigest rejectCTL
                    (Registry (normalize (parseImageOptions "alpine")))
                    (Repository (normalize (parseImageOptions "alpine")))
                    (Tag (normalize (parseImageOptions "alpine")))
                    (fst (credentials hostKey ∅
                            (Registry (normalize (parseImageOptions "alpine")))))
                    (snd (credentials hostKey ∅
                            (Registry (normalize (parseImageOptions "alpine")))))
                    false false) initial
               = (Some (Error (ErrBadResponse "403 Forbidden")), w1))
    by (vm_compute; reflexivity).
  destruct (fallback_after_failure rejectCTL hostKey remote initial w1
              "alpine" false ∅ _ H1) as [H _].
  rewrite H. vm_compute. reflexivity.
Defined.

Lemma manifest_request_authorization_witness :
  exists req k,
    getImageDigest rejectCTL "ghcr.io" "foo/bar" "v1" "user" "tokenPW"
      false false
    = SetTransport {| http.InsecureSkipVerify := false |} (Do req k)
    /\ http.URL req = "https://ghcr.io/v2/foo/bar/manifests/v1"
    /\ http.ReqHeader req !! "Authorization" = Some ["Bearer dG9rZW5QVw=="].
Proof.
  assert (Hu : "user" <> EmptyString) by discriminate.
  destruct (manifest_request_authorization rejectCTL "ghcr.io" "foo/bar" "v1"
              "user" "tokenPW" false false eq_refl)
    as (req & k & Hp & _ & Hurl & Hg & _).
  exists req, k. split; [exact Hp|]. split; [exact Hurl|].
  exact (Hg Hu eq_refl).
Defined.

Lemma normalize_spec_witness :
  (Registry (normalize prefixedOpts) = "myregistry.com"
   /\ Repository (normalize prefixedOpts) = "foo/bar"
   /\ Tag (normalize prefixedOpts) = "latest")
  /\ normalize (parseImageOptions "myregistry.com/foo/bar:1.2")
     = {| Registry := "myregistry.com";
          Repository := "foo/bar";
          Tag := "1.2" |}.
Proof.
  destruct normalize_spec as [H _]. split.
  - destruct (H prefixedOpts) as (_ & Hreg & Hrepo & Htag & _).
    assert (Hne : Registry prefixedOpts <> EmptyString) by discriminate.
    split; [exact (Hreg Hne)|]. split; [|exact (Htag eq_refl)].
    destruct (Hrepo "foo/bar" (or_intror (or_introl (conj Hne eq_refl))))
      as [_ Hkeep].
    apply Hkeep. left. rewrite (Hreg Hne). discriminate.
  - assert (Ho : parseImageOptions "myregistry.com/foo/bar:1.2"
                = {| Registry := "myregistry.com"; Repository := "foo/bar";
                     Tag := "1.2" |}) by (vm_compute; reflexivity).
    rewrite Ho. clear Ho.
    set (o := {| Registry := "myregistry.com"; Repository := "foo/bar";
                 Tag := "1.2" |}).
    destruct (H o) as (_ & Hreg & Hrepo & _ & Htag).
    assert (Hne : Registry o <> EmptyString) by discriminate.
    assert (Hno : forall pre post,
               Repository o <> pre +:+ (Registry o +:+ "/") +:+ post).
    { intros pre post Heq. apply (f_equal strings.len) in Heq.
      rewrite !len_append in Heq. simpl in Heq. lia. }
    destruct (Hrepo "foo/bar"
                (or_intror (or_intror (or_introl (conj Hne (conj Hno eq_refl))))))
      as [_ Hkeep].
    specialize (Hreg Hne).
    assert (Htag' : Tag o <> EmptyString) by discriminate.
    specialize (Htag Htag').
    assert (Hrep : Repository (normalize o) = "foo/bar").
    { apply Hkeep. left. rewrite Hreg. discriminate. }
    destruct (normalize o) as [r p t].
    cbn [Registry Repository Tag] in Hreg, Hrep, Htag.
    rewrite Hreg, Hrep, Htag. reflexivity.
Defined.

Lemma token_request_shape_witness :
  exists tokenRequest k,
    handshake rejectCTL alpineRequest hubChallenge "user" "secret"
    = Do tokenRequest k
    /\ http.URL tokenRequest
       = "https://auth.docker.io/token?scope=repository%3Alibrary%2Falpine%3Apull&service=registry.docker.io"
    /\ http.ReqHeader tokenRequest
       = {[ "Authorization" := ["Basic dXNlcjpzZWNyZXQ="] ]}.
Proof.
  assert (Hparse : parseAuthHeader hubChallenge
                   = Some (default ∅ (parseAuthHeader hubChallenge)))
    by (vm_compute; reflexivity).
  assert (Hurl : rejectCTL
                   (at_ (default ∅ (parseAuthHeader hubChallenge)) "realm"
                    +:+ "?scope="
                    +:+ url.QueryEscape
                          (at_ (default ∅ (parseAuthHeader hubChallenge))
                             "scope")
                    +:+ "&service="
                    +:+ url.QueryEscape
                          (at_ (default ∅ (parseAuthHeader hubChallenge))
                             "service")) = None)
    by (vm_compute; reflexivity).
  destruct (token_request_shape rejectCTL alpineRequest hubChallenge "user"
              "secret" _ Hparse Hurl)
    as (tokenRequest & k & Hp & _ & Hu & Hh & _).
  exists tokenRequest, k. split; [exact Hp|]. split.
  - rewrite Hu. vm_compute. reflexivity.
  - rewrite Hh by discriminate. vm_compute. reflexivity.
Defined.

Lemma token_response_decoding_witness :
  let out :=
    run (hub "200 OK" 200 tokenJSON)
      (handshake rejectCTL alpineRequest hubChallenge EmptyString EmptyString)
      verifyingWorld in
  map (fun req => http.Get (http.ReqHeader req) "Authorization")
    (sent (trace (snd out)))
  = [EmptyString; "Bearer abc"].
Proof.
  cbv zeta. set (remote := hub "200 OK" 200 tokenJSON).
  pose (auth := default ∅ (parseAuthHeader hubChallenge)).
  pose (tokenRequest0 := {| http.Method := "GET"; http.URL := tokenURL auth;
                            http.ReqHeader := ∅ |}).
  assert (Hparse : parseAuthHeader hubChallenge = Some auth)
    by (vm_compute; reflexivity).
  assert (Hnew : NewRequest rejectCTL "GET" (tokenURL auth) = OK tokenRequest0)
    by (vm_compute; reflexivity).
  assert (Hans : remote verifyingWorld
                   (withCredentials tokenRequest0 EmptyString EmptyString)
                 = OK (respond "200 OK" 200 [] tokenJSON))
    by (vm_compute; reflexivity).
  destruct (token_response_decoding rejectCTL remote verifyingWorld
              alpineRequest hubChallenge EmptyString EmptyString auth
              tokenRequest0 _ (bytes_of_string tokenJSON)
              Hparse Hnew Hans eq_refl eq_refl) as (_ & _ & H).
  assert (Htok : Unmarshal (bytes_of_string tokenJSON)
                   {| Token := EmptyString |} = OK {| Token := "abc" |})
    by (vm_compute; reflexivity).
  destruct (H _ Htok) as (Hsent & _).
  rewrite Hsent. vm_compute. reflexivity.
Defined.

(** ** Where the specification and the code part *)


(** C7, as stated, fails: the token request for the challenge of Docker Hub
    has the scope parameter first, not the service parameter. *)
Lemma token_url_scope_first :
  let out := run (hub "200 OK" 200 tokenJSON) alpineLookup initial in
  let auth := default ∅ (parseAuthHeader hubChallenge) in
  map http.URL (sent (trace (snd out))) !! 1%nat
  = Some "https://auth.docker.io/token?scope=repository%3Alibrary%2Falpine%3Apull&service=registry.docker.io"
  /\ serviceFirstURL auth
     = "https://auth.docker.io/token?service=registry.docker.io&scope=repository%3Alibrary%2Falpine%3Apull"
  /\ map http.URL (sent (trace (snd out))) !! 1%nat
     <> Some (serviceFirstURL auth).
Proof. vm_compute. repeat split; try reflexivity. discriminate. Qed.

(** C8, as stated, fails: the body of the token response is the empty JSON
    object, without a token member, and the handshake does not fail with a
    token parse error; it retries with an empty bearer token and the lookup
    succeeds. *)
Lemma empty_object_is_no_parse_error :
  let out := run (hub "200 OK" 200 "{}") alpineLookup initial in
  json.parse "{}" = Some (json.Object [])
  /\ fst out = Some (OK "sha256:feed")
  /\ map (fun req => http.Get (http.ReqHeader req) "Authorization")
       (sent (trace (snd out)))
     = [EmptyString; EmptyString; "Bearer "].
Proof. vm_compute. repeat split; reflexivity. Qed.

(** C5, as stated, fails: credentials with an empty user name and the
    password tokenPW are not anonymous, the password is not empty, and the
    manifest request carries no Authorization header: not the bearer value
    for ghcr.io, not the basic-auth value for another host. *)
Lemma password_only_unauthorized :
  let username := EmptyString in
  let password := "tokenPW" in
  (username, password) <> (EmptyString, EmptyString)
  /\ (exists req k,
        getImageDigest rejectCTL "ghcr.io" "foo/bar" "v1" username password
          false false
        = SetTransport {| http.InsecureSkipVerify := false |} (Do req k)
        /\ http.ReqHeader req !! "Authorization" = None
        /\ http.ReqHeader req !! "Authorization"
           <> Some ["Bearer " +:+ b64.EncodeToString
                                    (bytes_of_string password)])
  /\ (exists req k,
        getImageDigest rejectCTL "quay.io" "foo/bar" "v1" username password
          false false
        = SetTransport {| http.InsecureSkipVerify := false |} (Do req k)
        /\ http.ReqHeader req !! "Authorization" = None
        /\ http.ReqHeader req !! "Authorization"
           <> Some ["Basic " +:+ b64.EncodeToString
                                   (bytes_of_string
                                      (username +:+ ":" +:+ password))]).
Proof.
  cbv zeta. split; [discriminate|].
  split; (eexists; eexists; split; [reflexivity|]);
    (split; [vm_compute; reflexivity | vm_compute; discriminate]).
Qed.

(** C4.  A first attempt that panics ends the read: for every registry and
    reference, when the call of line 80 panics the read panics in the world
    that call left, and line 82 is not reached.  So it is for the reference
    "alpine" and a registry whose Bearer challenge names the actions pull and
    push in its scope: [parseAuthHeader] splits at the comma between them,
    finds a parameter without "=" and indexes out of range.  The first
    attempt fails that way after one manifest request with the modern media
    types, and the read ends there, without a request for the legacy media
    type, although with the first parameters alone the token endpoint would
    have issued a token. *)
Theorem fallback_skipped_on_panic :
  (forall (urlParseError : string -> option string)
          (normalizeRegistryAddress : string -> string) (remote : Remote)
          (name : string) (insecureSkipVerify : bool)
          (configs : gmap string AuthConfig) (w : World),
     match run remote
             (attempt urlParseError normalizeRegistryAddress name
                insecureSkipVerify configs false) w with
     | (None, w1) =>
         run remote
           (dataSourceDockerRegistryImageRead urlParseError
              normalizeRegistryAddress name insecureSkipVerify configs) w
         = (None, w1)
     | (Some _, _) => True
     end)
  /\ (let read :=
        dataSourceDockerRegistryImageRead rejectCTL hostKey "alpine" false ∅ in
      let w1 :=
        record verifyingWorld
          (EvDo (Some {| http.InsecureSkipVerify := false |}) alpineRequest) in
      pushHub verifyingWorld alpineRequest
      = OK (respond "401 Unauthorized" 401
              [("Www-Authenticate", pushChallenge)] EmptyString)
      /\ strings.HasPrefix pushChallenge "Bearer" = true
      /\ parseAuthHeader pushChallenge = None
      /\ attempt rejectCTL hostKey "alpine" false ∅ false = alpineLookup
      /\ run pushHub alpineLookup initial = (None, w1)
      /\ run pushHub read initial = (None, w1)
      /\ sent (trace w1) = [alpineRequest]
      /\ http.ReqHeader alpineRequest !! "Accept" = Some mediaTypes
      /\ forall req, req ∈ sent (trace w1) ->
           http.ReqHeader req !! "Accept" <> Some [legacyMediaType]).
Proof.
  split.
  - intros urlParseError normalizeRegistryAddress remote name
      insecureSkipVerify configs w.
    unfold dataSourceDockerRegistryImageRead, attempt.
    destruct (credentials normalizeRegistryAddress configs _)
      as [username password].
    cbn [fst snd]. unfold mbind, Prog_bind, mret, Prog_ret.
    rewrite run_bind.
    destruct (run remote _ w) as [[first|] w1]; [exact I|reflexivity].
  - cbv zeta.
    assert (Haccept : http.ReqHeader alpineRequest !! "Accept"
                      = Some mediaTypes) by (vm_compute; reflexivity).
    split; [vm_compute; reflexivity|].
    split; [vm_compute; reflexivity|].
    split; [vm_compute; reflexivity|].
    split; [reflexivity|].
    split; [vm_compute; reflexivity|].
    split; [vm_compute; reflexivity|].
    split; [vm_compute; reflexivity|].
    split; [exact Haccept|].
    intros req Hin. apply list_elem_of_singleton in Hin as ->.
    rewrite Haccept. discriminate.
Qed.

(** * Further properties *)

Section MoreStringFacts.

Implicit Types s t : string.

Lemma Index1_None_app c s t :
  strings.Index s (String c EmptyString) = None ->
  strings.Index t (String c EmptyString) = None ->
  strings.Index (s +:+ t) (String c EmptyString) = None.
Proof.
  intros Hs Ht. induction s as [|d s IH]; [exact Ht|].
  simpl in *. destruct (Ascii.eqb c d); simpl in *; [discriminate|].
  destruct (strings.Index s (String c EmptyString)); simpl in *;
    [discriminate|].
  rewrite (IH eq_refl). reflexivity.
Qed.

Lemma Contains1_app c s t :
  strings.Contains s (String c EmptyString) = false ->
  strings.Contains t (String c EmptyString) = false ->
  strings.Contains (s +:+ t) (String c EmptyString) = false.
Proof. rewrite !Contains_false. apply Index1_None_app. Qed.

(** Splitting undoes joining, when no part contains the separator. *)
Lemma genSplit_join c (parts : list string) (p : string) : forall n,
  Forall (fun x => strings.Index x (String c EmptyString) = None) (p :: parts) ->
  (length parts <= n)%nat ->
  strings.genSplit n (url.join (p :: parts) (String c EmptyString))
    (String c EmptyString) = p :: parts.
Proof.
  revert p. induction parts as [|q parts IH]; intros p n Hall Hn.
  - simpl. apply Forall_cons in Hall as [Hp _].
    destruct n; simpl; [reflexivity|]. rewrite Hp. reflexivity.
  - apply Forall_cons in Hall as [Hp Hall].
    destruct n as [|n]; [simpl in Hn; lia|].
    change (url.join (p :: q :: parts) (String c EmptyString))
      with (p +:+ String c (url.join (q :: parts) (String c EmptyString))).
    cbn [strings.genSplit].
    rewrite (Index1_app _ _ _ Hp), take_append.
    change (strings.len (String c EmptyString)) with 1%nat.
    assert (Hn' : (length parts <= n)%nat) by (simpl in Hn; lia).
    rewrite drop_app_S, (IH q n Hall Hn'). reflexivity.
Qed.

Lemma join_length c (parts : list string) (p : string) :
  (length parts <= strings.len (url.join (p :: parts) (String c EmptyString)))%nat.
Proof.
  revert p. induction parts as [|q parts IH]; intros p; [simpl; lia|].
  change (url.join (p :: q :: parts) (String c EmptyString))
    with (p +:+ String c (url.join (q :: parts) (String c EmptyString))).
  rewrite len_append. cbn [strings.len List.length]. specialize (IH q). lia.
Qed.

Lemma Split_join (parts : list string) (p : string) :
  Forall (fun x => strings.Contains x "," = false) (p :: parts) ->
  strings.Split (url.join (p :: parts) ",") "," = p :: parts.
Proof.
  intros Hall. unfold strings.Split, strings.SplitN. simpl.
  apply genSplit_join; [|apply join_length].
  eapply Forall_impl; [exact Hall|]. intros x. apply Contains_false.
Qed.

End MoreStringFacts.

(** ** More on the challenge parser *)

Lemma parseAuthPart_param (opts : gmap string string) (kv : string * string) :
  strings.Contains (fst kv) "=" = false ->
  parseAuthPart opts (param kv) = Some (store opts kv).
Proof.
  destruct kv as [k v]. intros Hk. cbn [fst] in Hk.
  apply Contains_false in Hk.
  unfold parseAuthPart, strings.SplitN, param, store. cbn [fst snd].
  change (k +:+ "=" +:+ v) with (k +:+ String "=" v).
  change (Z.to_nat 2 - 1)%nat with 1%nat. cbn [strings.genSplit].
  rewrite (Index1_app _ _ _ Hk), take_append.
  change (strings.len "=") with 1%nat. rewrite drop_app_S. reflexivity.
Qed.

Lemma parseAuthParts_params (kvs : list (string * string)) : forall opts,
  Forall plainParam kvs ->
  parseAuthParts (map param kvs) opts = Some (fold_left store kvs opts).
Proof.
  induction kvs as [|kv kvs IH]; intros opts Hall; [reflexivity|].
  apply Forall_cons in Hall as [(Hk & _ & _) Hall].
  cbn [map parseAuthParts fold_left].
  rewrite (parseAuthPart_param _ _ Hk). simpl. apply IH, Hall.
Qed.

Lemma param_no_comma (kv : string * string) :
  plainParam kv -> strings.Contains (param kv) "," = false.
Proof.
  destruct kv as [k v]. intros (_ & Hk & Hv). unfold param. cbn [fst snd] in *.
  apply Contains1_app; [exact Hk|].
  change ("=" +:+ v) with (String "=" EmptyString +:+ v).
  apply Contains1_app; [reflexivity | exact Hv].
Qed.

(** The parser on a challenge that is written out parameter by
    parameter. *)
Lemma parseAuthHeader_challengeOf (scheme : string) (kv : string * string)
  (kvs : list (string * string)) :
  strings.Contains scheme " " = false ->
  Forall plainParam (kv :: kvs) ->
  parseAuthHeader (challengeOf scheme (kv :: kvs))
  = Some (fold_left store (kv :: kvs) ∅).
Proof.
  intros Hs Hall. apply Contains_false in Hs.
  rewrite parseAuthHeader_split. unfold challengeOf.
  change (scheme +:+ " " +:+ url.join (map param (kv :: kvs)) ",")
    with (scheme +:+ String " " (url.join (map param (kv :: kvs)) ",")).
  rewrite (Index1_app _ _ _ Hs), drop_app_S.
  cbn [map]. rewrite Split_join.
  - apply (parseAuthParts_params (kv :: kvs)), Hall.
  - change (param kv :: map param kvs) with (map param (kv :: kvs)).
    apply Forall_map. eapply Forall_impl; [exact Hall|].
    intros x. apply param_no_comma.
Qed.

Lemma fold_store_lookup (kvs : list (string * string)) (key : string) :
  forall opts,
    fold_left store kvs opts !! key
    = match lastValue key kvs with
      | Some v => Some v
      | None => opts !! key
      end.
Proof.
  unfold lastValue.
  induction kvs as [|kv kvs IH]; intros opts; [reflexivity|].
  cbn [fold_left]. rewrite IH, filter_cons.
  destruct (last (filter (fun kv => fst kv = key) kvs)) as [kv'|] eqn:Hl.
  - destruct (decide (fst kv = key)); [|rewrite Hl; reflexivity].
    rewrite last_cons, Hl. reflexivity.
  - apply last_None in Hl. rewrite Hl. unfold store.
    destruct (decide (fst kv = key)) as [<-|Hne]; simpl.
    + apply lookup_insert_eq.
    + apply lookup_insert_ne, Hne.
Qed.

(** X1.  In a challenge written as the scheme, a space and comma-separated
    key=value parameters (no comma inside a parameter, no equals sign inside
    a key), every key is mapped to the trimmed value of its last occurrence,
    and keys that do not occur are absent. *)
Theorem parseAuthHeader_last_wins (scheme : string) (kv : string * string)
  (kvs : list (string * string)) :
  strings.Contains scheme " " = false ->
  Forall plainParam (kv :: kvs) ->
  exists auth,
    parseAuthHeader (challengeOf scheme (kv :: kvs)) = Some auth
    /\ forall key, auth !! key = lastValue key (kv :: kvs).
Proof.
  intros Hs Hall. eexists. split.
  - apply (parseAuthHeader_challengeOf _ _ _ Hs Hall).
  - intros key. rewrite fold_store_lookup.
    destruct (lastValue key (kv :: kvs)); [reflexivity|apply lookup_empty].
Qed.

(** *** Trimmed values *)

Lemma TrimLeft_head (s cs : string) (c : ascii) (r : string) :
  strings.TrimLeft s cs = String c r -> strings.inCutset c cs = false.
Proof.
  induction s as [|d s IH]; simpl; [discriminate|].
  destruct (strings.inCutset d cs) eqn:E; [exact IH|].
  intros [= <- _]. exact E.
Qed.

Lemma TrimRight_head (s cs : string) (c : ascii) (r : string) :
  (forall c' r', s = String c' r' -> strings.inCutset c' cs = false) ->
  strings.TrimRight s cs = String c r -> strings.inCutset c cs = false.
Proof.
  destruct s as [|d s]; simpl; [discriminate|]. intros Hd.
  destruct (strings.TrimRight s cs).
  - destruct (strings.inCutset d cs); [discriminate|].
    intros [= <- _]. exact (Hd _ _ eq_refl).
  - intros [= <- _]. exact (Hd _ _ eq_refl).
Qed.

Lemma TrimRight_last (s cs : string) : forall (pre : string) (c : ascii),
  strings.TrimRight s cs = pre +:+ String c EmptyString ->
  strings.inCutset c cs = false.
Proof.
  induction s as [|d s IH]; intros pre c; simpl.
  - destruct pre; discriminate.
  - destruct (strings.TrimRight s cs) as [|e t] eqn:Ht.
    + destruct (strings.inCutset d cs) eqn:E.
      * destruct pre; discriminate.
      * destruct pre as [|x [|y pre]]; try discriminate.
        intros [= <-]. exact E.
    + destruct pre as [|x pre]; [discriminate|].
      rewrite app_cons. intros [= _ H]. exact (IH _ _ H).
Qed.

(** A string that neither begins nor ends with a byte of the cutset. *)
Lemma Trim_ends (s cs : string) :
  (forall c r, strings.Trim s cs = String c r -> strings.inCutset c cs = false)
  /\ (forall pre c, strings.Trim s cs = pre +:+ String c EmptyString ->
        strings.inCutset c cs = false).
Proof.
  unfold strings.Trim. split.
  - intros c r. apply TrimRight_head. intros c' r'. apply TrimLeft_head.
  - apply TrimRight_last.
Qed.

Lemma parseAuthParts_values (P : string -> Prop) (parts : list string) :
  (forall raw, P (strings.Trim raw cutset)) ->
  forall opts auth,
    map_Forall (fun _ v => P v) opts ->
    parseAuthParts parts opts = Some auth ->
    map_Forall (fun _ v => P v) auth.
Proof.
  intros HP. induction parts as [|part parts IH]; intros opts auth Ho; simpl.
  - intros [= <-]. exact Ho.
  - unfold parseAuthPart.
    destruct (index0 _) as [key|]; [|discriminate].
    destruct (index1 _) as [raw|]; [|discriminate]. simpl.
    apply IH. apply map_Forall_insert_2; [apply HP | exact Ho].
Qed.

(** X2.  No value of a parsed challenge begins or ends with a quote, a
    comma or a space. *)
Theorem parseAuthHeader_values_trimmed (header : string)
  (auth : gmap string string) (key v : string) :
  parseAuthHeader header = Some auth ->
  auth !! key = Some v ->
  (forall c r, v = String c r -> strings.inCutset c cutset = false)
  /\ (forall pre c, v = pre +:+ String c EmptyString ->
        strings.inCutset c cutset = false).
Proof.
  intros Hp Hk. unfold parseAuthHeader in Hp.
  destruct (index1 _) as [rest|]; [|discriminate]. simpl in Hp.
  pose proof (parseAuthParts_values
                (fun v => (forall c r, v = String c r ->
                             strings.inCutset c cutset = false)
                          /\ (forall pre c, v = pre +:+ String c EmptyString ->
                                strings.inCutset c cutset = false))
                _ (fun raw => ltac:(destruct (Trim_ends raw cutset) as [H1 H2];
                                    split; intros; subst; eauto))
                ∅ auth (map_Forall_empty _) Hp) as Hall.
  exact (map_Forall_lookup_1 _ _ _ _ Hall Hk).
Qed.

Lemma parseAuthHeader_values_trimmed_witness :
  exists v,
    default ∅ (parseAuthHeader hubChallenge) !! "realm" = Some v
    /\ forall c r, v = String c r -> strings.inCutset c cutset = false.
Proof.
  assert (Hp : parseAuthHeader hubChallenge
               = Some (default ∅ (parseAuthHeader hubChallenge)))
    by (vm_compute; reflexivity).
  assert (Hk : default ∅ (parseAuthHeader hubChallenge) !! "realm"
               = Some "https://auth.docker.io/token")
    by (vm_compute; reflexivity).
  exists "https://auth.docker.io/token". split; [exact Hk|].
  exact (proj1 (parseAuthHeader_values_trimmed _ _ _ _ Hp Hk)).
Defined.

Lemma parseAuthHeader_last_wins_witness :
  exists auth,
    parseAuthHeader "Bearer realm=a,service=b,realm=c" = Some auth
    /\ auth !! "realm" = Some "c"
    /\ auth !! "scope" = None.
Proof.
  assert (Hs : strings.Contains "Bearer" " " = false) by reflexivity.
  assert (Hall : Forall plainParam
                   [("realm", "a"); ("service", "b"); ("realm", "c")])
    by (repeat constructor).
  destruct (parseAuthHeader_last_wins "Bearer" ("realm", "a")
              [("service", "b"); ("realm", "c")] Hs Hall)
    as (auth & Hp & Hl).
  exists auth. split; [exact Hp|]. rewrite !Hl. split; reflexivity.
Defined.

Lemma space_not_self (k : string) : k <> " " +:+ k.
Proof.
  intros H. apply (f_equal strings.len) in H. rewrite len_append in H.
  simpl in H. lia.
Qed.

(** X3.  White space after a comma becomes part of the next key: when two
    parameters are separated by a comma and a space, the second is stored
    under its key with a leading space, and the lookup of the key itself
    finds nothing. *)
Theorem parseAuthHeader_space_after_comma (scheme k1 v1 k2 v2 : string) :
  strings.Contains scheme " " = false ->
  plainParam (k1, v1) ->
  plainParam (k2, v2) ->
  k1 <> k2 ->
  exists auth,
    parseAuthHeader
      (scheme +:+ " " +:+ k1 +:+ "=" +:+ v1 +:+ ", " +:+ k2 +:+ "=" +:+ v2)
    = Some auth
    /\ auth !! k2 = None
    /\ auth !! (" " +:+ k2) = Some (strings.Trim v2 cutset)
    /\ at_ auth k2 = EmptyString.
Proof.
  intros Hs H1 H2 Hne.
  assert (H2' : plainParam (" " +:+ k2, v2)).
  { destruct H2 as (Ha & Hb & Hc). cbn [fst snd] in *. repeat split.
    - change (" " +:+ k2) with (String " " EmptyString +:+ k2).
      apply Contains1_app; [reflexivity|exact Ha].
    - change (" " +:+ k2) with (String " " EmptyString +:+ k2).
      apply Contains1_app; [reflexivity|exact Hb].
    - exact Hc. }
  assert (E : scheme +:+ " " +:+ k1 +:+ "=" +:+ v1 +:+ ", " +:+ k2 +:+ "="
              +:+ v2
              = challengeOf scheme [(k1, v1); (" " +:+ k2, v2)]).
  { unfold challengeOf, param. cbn [map url.join fst snd].
    rewrite !app_assoc'. reflexivity. }
  rewrite E.
  rewrite (parseAuthHeader_challengeOf scheme (k1, v1) [(" " +:+ k2, v2)] Hs)
    by (constructor; [exact H1|constructor; [exact H2'|constructor]]).
  eexists. split; [reflexivity|].
  cbn [fold_left]. unfold store. cbn [fst snd].
  assert (Hnone : <[" " +:+ k2 := strings.Trim v2 cutset]>
                    (<[k1 := strings.Trim v1 cutset]>
                       (∅ : gmap string string)) !! k2
                  = None).
  { rewrite lookup_insert_ne by (intros H; exact (space_not_self k2 (eq_sym H))).
    rewrite lookup_insert_ne by exact Hne. apply lookup_empty. }
  split; [exact Hnone|]. split; [apply lookup_insert_eq|].
  unfold at_. rewrite Hnone. reflexivity.
Qed.

Lemma parseAuthHeader_space_after_comma_witness :
  exists auth,
    parseAuthHeader "Bearer realm=r, service=s" = Some auth
    /\ at_ auth "service" = EmptyString.
Proof.
  assert (Hs : strings.Contains "Bearer" " " = false) by reflexivity.
  assert (H1 : plainParam ("realm", "r")) by (repeat split).
  assert (H2 : plainParam ("service", "s")) by (repeat split).
  assert (Hne : "realm" <> "service") by discriminate.
  destruct (parseAuthHeader_space_after_comma "Bearer" "realm" "r" "service"
              "s" Hs H1 H2 Hne) as (auth & Hp & _ & _ & Ha).
  exists auth. split; [exact Hp | exact Ha].
Defined.

(** ** More on the normalisation *)

Lemma normalize_registry_nonempty (o : PullOpts) :
  Registry (normalize o) <> EmptyString.
Proof.
  unfold normalize. simpl.
  destruct (decide (Registry o = EmptyString)); [discriminate|assumption].
Qed.

Lemma normalize_tag_nonempty (o : PullOpts) : Tag (normalize o) <> EmptyString.
Proof.
  unfold normalize. simpl.
  destruct (decide (Tag o = EmptyString)); [discriminate|assumption].
Qed.

Lemma normalize_default_slash (o : PullOpts) :
  Registry (normalize o) = "registry-1.docker.io" ->
  strings.Contains (Repository (normalize o)) "/" = true.
Proof.
  unfold normalize. cbn [Registry Repository].
  set (reg := if decide (Registry o = EmptyString) then _ else _).
  set (repo := if decide (Registry o = EmptyString) then _ else _).
  intros Hreg. destruct (decide (reg = "registry-1.docker.io")); [|contradiction].
  destruct (strings.Contains repo "/") eqn:Hc; simpl; [exact Hc|reflexivity].
Qed.

(** X4.  A normalised reference has a registry and a tag, and on the
    default registry its repository has a slash: the manifest URL never has
    an empty host or an empty tag, and official images are always addressed
    under a namespace. *)
Theorem normalize_invariants (o : PullOpts) :
  Registry (normalize o) <> EmptyString
  /\ Tag (normalize o) <> EmptyString
  /\ (Registry (normalize o) = "registry-1.docker.io" ->
      strings.Contains (Repository (normalize o)) "/" = true).
Proof.
  split; [apply normalize_registry_nonempty|].
  split; [apply normalize_tag_nonempty | apply normalize_default_slash].
Qed.

Lemma Replace_absent (s old new : string) :
  strings.Contains s old = false -> strings.Replace s old new 1 = s.
Proof.
  intros H. apply Contains_false in H. unfold strings.Replace. simpl.
  rewrite H. reflexivity.
Qed.

(** X5.  Normalising a normalised reference changes nothing, provided its
    repository no longer contains the registry host and a slash: the
    "library/" prefix and the default tag are never applied twice. *)
Theorem normalize_idempotent (o : PullOpts) :
  strings.Contains (Repository (normalize o))
    (Registry (normalize o) +:+ "/") = false ->
  normalize (normalize o) = normalize o.
Proof.
  intros Hfree.
  pose proof (normalize_registry_nonempty o) as Hreg.
  pose proof (normalize_tag_nonempty o) as Htag.
  pose proof (normalize_default_slash o) as Hslash.
  destruct (normalize o) as [reg repo tag]. cbn [Registry Repository Tag] in *.
  unfold normalize. cbn [Registry Repository Tag].
  destruct (decide (reg = EmptyString)); [contradiction|].
  destruct (decide (tag = EmptyString)); [contradiction|].
  rewrite (Replace_absent _ _ _ Hfree).
  destruct (decide (reg = "registry-1.docker.io")) as [Hd|]; [|reflexivity].
  rewrite (Hslash Hd). reflexivity.
Qed.

Lemma normalize_idempotent_witness :
  normalize (normalize (parseImageOptions "consul:1.9"))
  = {| Registry := "registry-1.docker.io"; Repository := "library/consul";
       Tag := "1.9" |}.
Proof.
  rewrite (normalize_idempotent (parseImageOptions "consul:1.9"));
    reflexivity.
Defined.

(** ** More on the lookup *)

Section Lookup.

Variable urlParseError : string -> option string.
Variable remote : Remote.

Abbreviation sentCount w := (length (sent (trace w))).

(** The switch on the status code, run: every path in one equation. *)
Lemma run_dispatch (req : http.Request) (resp : http.Response)
  (username password : string) (w : World) :
  let challenge := http.Get (http.RespHeader resp) "www-authenticate" in
  run remote (dispatch urlParseError req resp username password) w =
  if http.StatusCode resp =? http.StatusOK then
    run remote (getDigestFromResponse resp) w
  else if http.StatusCode resp =? http.StatusUnauthorized then
    if strings.HasPrefix challenge "Bearer" then
      match parseAuthHeader challenge with
      | None => (None, w)
      | Some auth =>
          match urlParseError (tokenURL auth) with
          | Some err => (Some (Error (ErrCreatingRequest err)), w)
          | None =>
              run remote
                (handshake urlParseError req challenge username password) w
          end
      end
    else (Some (Error (ErrBadCredentials (http.Status resp))), w)
  else (Some (Error (ErrBadResponse (http.Status resp))), w).
Proof.
  intros challenge. unfold dispatch. fold challenge.
  destruct (http.StatusCode resp =? http.StatusOK); [reflexivity|].
  destruct (http.StatusCode resp =? http.StatusUnauthorized); [|reflexivity].
  destruct (strings.HasPrefix challenge "Bearer"); [|reflexivity].
  unfold handshake, NewRequest.
  destruct (parseAuthHeader challenge) as [auth|]; [|reflexivity].
  destruct (urlParseError (tokenURL auth)); reflexivity.
Qed.

Lemma NewRequest_accepted (url : string) :
  urlParseError url = None ->
  NewRequest urlParseError "GET" url
  = OK {| http.Method := "GET"; http.URL := url; http.ReqHeader := ∅ |}.
Proof. intros H. unfold NewRequest. rewrite H. reflexivity. Qed.

Lemma sentCount_record_Do (w : World) (via : option http.Transport)
  (req : http.Request) :
  sentCount (record w (EvDo via req)) = S (sentCount w).
Proof. simpl. rewrite sent_app, length_app. simpl. lia. Qed.

Lemma sentCount_record_Read (w : World) (b : http.Body) :
  sentCount (record w (EvReadAll b)) = sentCount w.
Proof. simpl. rewrite sent_app, length_app. simpl. lia. Qed.

Lemma handshake_sentCount (req : http.Request)
  (challenge username password : string) (auth : gmap string string)
  (w : World) :
  parseAuthHeader challenge = Some auth ->
  urlParseError (tokenURL auth) = None ->
  let n :=
    sentCount (snd (run remote
                      (handshake urlParseError req challenge username
                         password) w)) in
  (sentCount w + 1 <= n <= sentCount w + 2)%nat.
Proof.
  intros Hparse Hurl.
  rewrite (run_handshake urlParseError remote req challenge username password
             auth _ w Hparse (NewRequest_accepted _ Hurl)).
  cbv zeta.
  destruct (remote w _) as [tr|err]; cbv beta iota zeta;
    [|cbn [snd]; rewrite sentCount_record_Do; lia].
  destruct (negb _); cbv beta iota zeta;
    [cbn [snd]; rewrite sentCount_record_Do; lia|].
  destruct (readAll _) as [body|err]; cbv beta iota zeta;
    [|cbn [snd]; rewrite sentCount_record_Read, sentCount_record_Do; lia].
  destruct (Unmarshal body _) as [token|err]; cbv beta iota zeta;
    [|cbn [snd]; rewrite sentCount_record_Read, sentCount_record_Do; lia].
  rewrite retry_sent, length_app.
  change (sent (trace (record ?w0 ?e))) with (sent (trace (record w0 e))).
  rewrite sentCount_record_Read, sentCount_record_Do. simpl. lia.
Qed.

Lemma dispatch_sentCount (req : http.Request) (resp : http.Response)
  (username password : string) (w : World) :
  let n :=
    sentCount (snd (run remote
                      (dispatch urlParseError req resp username password) w))
  in (sentCount w <= n <= sentCount w + 2)%nat.
Proof.
  cbv zeta. rewrite run_dispatch. cbv zeta.
  destruct (http.StatusCode resp =? http.StatusOK).
  { rewrite getDigestFromResponse_sends_nothing. lia. }
  destruct (http.StatusCode resp =? http.StatusUnauthorized); [|simpl; lia].
  destruct (strings.HasPrefix _ "Bearer"); [|simpl; lia].
  destruct (parseAuthHeader _) as [auth|] eqn:Hparse; [|simpl; lia].
  destruct (urlParseError (tokenURL auth)) eqn:Hurl; [simpl; lia|].
  pose proof (handshake_sentCount req _ username password auth w Hparse Hurl)
    as H. cbv zeta in H. lia.
Qed.

(** X6.  One call of [getImageDigest] sends at most three requests; it
    sends none when the manifest URL is refused and at least one
    otherwise. *)
Theorem getImageDigest_request_bounds (w : World)
  (registry image tag username password : string)
  (insecureSkipVerify fallback : bool) :
  let out :=
    run remote
      (getImageDigest urlParseError registry image tag username password
         insecureSkipVerify fallback) w in
  (sentCount w <= sentCount (snd out) <= sentCount w + 3)%nat
  /\ (urlParseError (manifestURL registry image tag) = None ->
      (sentCount w + 1 <= sentCount (snd out))%nat)
  /\ (urlParseError (manifestURL registry image tag) <> None ->
      sent (trace (snd out)) = sent (trace w)).
Proof.
  cbv zeta.
  destruct (urlParseError (manifestURL registry image tag)) as [err|] eqn:Hurl.
  { unfold getImageDigest, NewRequest. rewrite Hurl. simpl.
    repeat split; try lia. discriminate. }
  rewrite (run_getImageDigest urlParseError remote w _ _ _ _ _
             insecureSkipVerify fallback _ (NewRequest_accepted _ Hurl)).
  cbv zeta.
  set (req := decorate _ _ _ _ _).
  set (t := Some {| http.InsecureSkipVerify := insecureSkipVerify |}).
  set (w0 := {| DefaultClient_Transport := t; trace := trace w |}).
  pose proof (sentCount_record_Do w0 t req) as H0.
  change (trace w0) with (trace w) in H0.
  destruct (remote w0 req) as [resp|err].
  - pose proof (dispatch_sentCount req resp username password
                  (record w0 (EvDo t req))) as H.
    cbv zeta in H. rewrite H0 in H.
    split; [|split]; [lia | intros _; lia | intros Hc; contradiction].
  - cbn [snd]. rewrite H0.
    split; [|split]; [lia | intros _; lia | intros Hc; contradiction].
Qed.


(** *** What a successful lookup returns *)

Lemma getDigestFromResponse_nonempty (response : http.Response) (w : World)
  (d : string) :
  fst (run remote (getDigestFromResponse response) w) = Some (OK d) ->
  d <> EmptyString.
Proof.
  unfold getDigestFromResponse.
  destruct (decide (_ = EmptyString)) as [|Hne].
  - simpl. destruct (readAll _); simpl; [|discriminate].
    intros [= <-]. discriminate.
  - simpl. intros [= <-]. exact Hne.
Qed.

Lemma retry_nonempty (req : http.Request) (token : TokenResponse) (w : World)
  (d : string) :
  fst (run remote (retry req token) w) = Some (OK d) -> d <> EmptyString.
Proof.
  unfold retry. simpl.
  destruct (remote w _) as [dr|err]; simpl; [|discriminate].
  destruct (negb _); simpl; [discriminate|].
  apply getDigestFromResponse_nonempty.
Qed.

Lemma dispatch_nonempty (req : http.Request) (resp : http.Response)
  (username password : string) (w : World) (d : string) :
  fst (run remote (dispatch urlParseError req resp username password) w)
  = Some (OK d) ->
  d <> EmptyString.
Proof.
  rewrite run_dispatch. cbv zeta.
  destruct (http.StatusCode resp =? http.StatusOK);
    [apply getDigestFromResponse_nonempty|].
  destruct (http.StatusCode resp =? http.StatusUnauthorized); [|discriminate].
  destruct (strings.HasPrefix _ "Bearer"); [|discriminate].
  destruct (parseAuthHeader _) as [auth|] eqn:Hparse; [|discriminate].
  destruct (urlParseError (tokenURL auth)) eqn:Hurl; [discriminate|].
  rewrite (run_handshake urlParseError remote req _ username password
             auth _ w Hparse (NewRequest_accepted _ Hurl)).
  cbv zeta.
  destruct (remote w _) as [tr|err]; [|discriminate].
  destruct (negb _); [discriminate|].
  destruct (readAll _) as [body|err]; [|discriminate].
  destruct (Unmarshal body _) as [token|err]; [|discriminate].
  apply retry_nonempty.
Qed.

Lemma getImageDigest_nonempty (w : World)
  (registry image tag username password : string)
  (insecureSkipVerify fallback : bool) (d : string) :
  fst (run remote
         (getImageDigest urlParseError registry image tag username password
            insecureSkipVerify fallback) w) = Some (OK d) ->
  d <> EmptyString.
Proof.
  destruct (urlParseError (manifestURL registry image tag)) as [err|] eqn:Hurl.
  { unfold getImageDigest, NewRequest. rewrite Hurl. discriminate. }
  rewrite (run_getImageDigest urlParseError remote w _ _ _ _ _
             insecureSkipVerify fallback _ (NewRequest_accepted _ Hurl)).
  cbv zeta. destruct (remote _ _) as [resp|err]; [|discriminate].
  apply dispatch_nonempty.
Qed.

(** *** When the lookup panics *)

Lemma dispatch_panics (req : http.Request) (resp : http.Response)
  (username password : string) (w : World) :
  let challenge := http.Get (http.RespHeader resp) "www-authenticate" in
  fst (run remote (dispatch urlParseError req resp username password) w)
  = None
  <-> http.StatusCode resp = http.StatusUnauthorized
      /\ strings.HasPrefix challenge "Bearer" = true
      /\ parseAuthHeader challenge = None.
Proof.
  intros challenge. rewrite run_dispatch. fold challenge.
  assert (Hsome : forall (A : Type) (o : option A),
             is_Some o -> o = None <-> False).
  { intros A o [x ->]. split; [discriminate|contradiction]. }
  destruct (Z.eqb_spec (http.StatusCode resp) http.StatusOK) as [H200|H200].
  { rewrite (Hsome _ _ (getDigestFromResponse_returns remote resp w)).
    split; [contradiction|]. intros (H & _). rewrite H200 in H. discriminate. }
  destruct (Z.eqb_spec (http.StatusCode resp) http.StatusUnauthorized)
    as [H401|H401].
  2: { simpl. split; [discriminate|]. intros (H & _). contradiction. }
  destruct (strings.HasPrefix challenge "Bearer").
  2: { simpl. split; [discriminate|]. intros (_ & H & _). discriminate. }
  destruct (parseAuthHeader challenge) as [auth|] eqn:Hparse.
  2: { simpl. split; [intros _; repeat split; assumption | reflexivity]. }
  assert (is_Some
            (fst match urlParseError (tokenURL auth) with
                 | Some err => (Some (Error (ErrCreatingRequest err)), w)
                 | None =>
                     run remote
                       (handshake urlParseError req challenge username
                          password) w
                 end)) as Hret.
  { destruct (urlParseError (tokenURL auth)) eqn:Hurl; [simpl; eauto|].
    rewrite (run_handshake urlParseError remote req _ username password
               auth _ w Hparse (NewRequest_accepted _ Hurl)).
    cbv zeta.
    destruct (remote w _) as [tr|err]; [|simpl; eauto].
    destruct (negb _); [simpl; eauto|].
    destruct (readAll _) as [body|err]; [|simpl; eauto].
    destruct (Unmarshal body _) as [token|err]; [|simpl; eauto].
    apply retry_returns. }
  rewrite (Hsome _ _ Hret). split; [contradiction|].
  intros (_ & _ & H). discriminate.
Qed.

(** X7.  [getImageDigest] panics in exactly one situation: the manifest URL
    is accepted, the registry answers the manifest request with 401 and a
    WWW-Authenticate value that begins with "Bearer", and [parseAuthHeader]
    cannot parse that value.  On every other path it returns. *)
Theorem getImageDigest_panics_iff (w : World)
  (registry image tag username password : string)
  (insecureSkipVerify fallback : bool) :
  let req :=
    decorate
      {| http.Method := "GET"; http.URL := manifestURL registry image tag;
         http.ReqHeader := ∅ |} registry username password fallback in
  let w0 :=
    {| DefaultClient_Transport :=
         Some {| http.InsecureSkipVerify := insecureSkipVerify |};
       trace := trace w |} in
  fst (run remote
         (getImageDigest urlParseError registry image tag username password
            insecureSkipVerify fallback) w) = None
  <-> urlParseError (manifestURL registry image tag) = None
      /\ exists resp,
           remote w0 req = OK resp
           /\ http.StatusCode resp = http.StatusUnauthorized
           /\ strings.HasPrefix
                (http.Get (http.RespHeader resp) "www-authenticate") "Bearer"
              = true
           /\ parseAuthHeader
                (http.Get (http.RespHeader resp) "www-authenticate") = None.
Proof.
  intros req w0.
  destruct (urlParseError (manifestURL registry image tag)) as [err|] eqn:Hurl.
  { unfold getImageDigest, NewRequest. rewrite Hurl. simpl.
    split; [discriminate|]. intros [[=] _]. }
  rewrite (run_getImageDigest urlParseError remote w _ _ _ _ _
             insecureSkipVerify fallback _ (NewRequest_accepted _ Hurl)).
  cbv zeta. fold req. fold w0.
  destruct (remote w0 req) as [resp|err].
  - rewrite dispatch_panics. split.
    + intros H. split; [reflexivity|]. exists resp. split; [reflexivity|exact H].
    + intros (_ & resp' & [= <-] & H). exact H.
  - simpl. split; [discriminate|]. intros (_ & resp' & [=] & _).
Qed.

(** *** The manifest request *)

Lemma decorate_accept (registry username password : string) (fallback : bool)
  (method url : string) :
  http.ReqHeader
    (decorate {| http.Method := method; http.URL := url; http.ReqHeader := ∅ |}
       registry username password fallback) !! "Accept"
  = Some (if fallback then [legacyMediaType] else mediaTypes).
Proof.
  unfold decorate, http.SetBasicAuth.
  generalize (http.basicAuth username password).
  generalize (b64.EncodeToString (bytes_of_string password)).
  intros a b.
  destruct (decide (username ≠ EmptyString)), (decide (registry ≠ "ghcr.io")),
    fallback; reflexivity.
Qed.

Lemma decorate_other (req : http.Request)
  (registry username password : string) (fallback : bool) (key : string) :
  key <> "Accept" -> key <> "Authorization" ->
  http.ReqHeader (decorate req registry username password fallback) !! key
  = http.ReqHeader req !! key.
Proof.
  intros HA HB.
  assert (HA' : http.CanonicalMIMEHeaderKey "Accept" ≠ key)
    by (rewrite canon_Accept; congruence).
  assert (HB' : http.CanonicalMIMEHeaderKey "Authorization" ≠ key)
    by (rewrite canon_Authorization; congruence).
  unfold decorate, http.SetBasicAuth.
  destruct (decide (username ≠ EmptyString)), (decide (registry ≠ "ghcr.io")),
    fallback; cbn [http.withHeader http.ReqHeader fold_left mediaTypes];
    repeat first [ rewrite Set_lookup_ne by assumption
                 | rewrite Add_lookup_ne by assumption ]; reflexivity.
Qed.

(** X8.  Whatever the credentials, the manifest request is a GET of
    https://<registry>/v2/<image>/manifests/<tag>; its Accept header holds
    the four modern media types in the order of the source, or the legacy
    media type alone in fallback mode; it has no header besides Accept and
    Authorization. *)
Theorem manifest_request_shape
  (registry image tag username password : string)
  (insecureSkipVerify fallback : bool) :
  urlParseError (manifestURL registry image tag) = None ->
  exists req k,
    getImageDigest urlParseError registry image tag username password
      insecureSkipVerify fallback
    = SetTransport {| http.InsecureSkipVerify := insecureSkipVerify |}
        (Do req k)
    /\ http.Method req = "GET"
    /\ http.URL req
       = "https://" +:+ registry +:+ "/v2/" +:+ image +:+ "/manifests/" +:+ tag
    /\ http.ReqHeader req !! "Accept"
       = Some (if fallback then [legacyMediaType] else mediaTypes)
    /\ forall key, key <> "Accept" -> key <> "Authorization" ->
         http.ReqHeader req !! key = None.
Proof.
  intros Hurl. eexists. eexists. split.
  { apply (getImageDigest_unfold urlParseError _ _ _ _ _ _ _ _
             (NewRequest_accepted _ Hurl)). }
  destruct (decorate_url {| http.Method := "GET";
                            http.URL := manifestURL registry image tag;
                            http.ReqHeader := ∅ |}
              registry username password fallback) as [-> ->].
  split; [reflexivity|]. split; [reflexivity|].
  split; [apply decorate_accept|].
  intros key HA HB. rewrite decorate_other by assumption. apply lookup_empty.
Qed.

(** X16.  Run on its own, a call sends every one of its requests, the
    manifest request, the token request and the retried request, through a
    transport whose InsecureSkipVerify is the flag it was called with,
    whatever transport the default client held before. *)
Theorem requests_use_own_flag (w : World)
  (registry image tag username password : string)
  (insecureSkipVerify fallback : bool) :
  exists new,
    trace (snd (run remote
                  (getImageDigest urlParseError registry image tag username
                     password insecureSkipVerify fallback) w))
    = trace w ++ new
    /\ Forall
         (sentVia (Some {| http.InsecureSkipVerify := insecureSkipVerify |}))
         new.
Proof.
  exact (proj2 (getImageDigest_own_transport urlParseError remote w registry
                  image tag username password insecureSkipVerify fallback)).
Qed.

End Lookup.

(** X17.  The request of the fallback call differs from the request of the
    first call in the Accept header only: the method, the URL, the
    Authorization header and every other header are the same. *)
Theorem fallback_changes_accept_only (req : http.Request)
  (registry username password : string) :
  let modern := decorate req registry username password false in
  let legacy := decorate req registry username password true in
  http.Method legacy = http.Method modern
  /\ http.URL legacy = http.URL modern
  /\ (forall key, key <> "Accept" ->
        http.ReqHeader legacy !! key = http.ReqHeader modern !! key)
  /\ http.ReqHeader legacy !! "Accept" = Some [legacyMediaType].
Proof.
  intros modern legacy. subst modern legacy.
  destruct (decorate_url req registry username password true) as [-> ->].
  destruct (decorate_url req registry username password false) as [-> ->].
  split; [reflexivity|]. split; [reflexivity|]. split.
  - intros key Hk. destruct (decide (key = "Authorization")) as [->|Hne].
    + rewrite !decorate_authorization. reflexivity.
    + rewrite !decorate_other by assumption. reflexivity.
  - apply decorate_accept_fallback.
Qed.

(** ** More on the read *)

Section ReadFacts.

Variable urlParseError : string -> option string.
Variable normalizeRegistryAddress : string -> string.
Variable remote : Remote.

Abbreviation sentCount w := (length (sent (trace w))).

(** The read, run: the first call, and the second one if the first returned
    an error. *)
Lemma run_read (name : string) (insecureSkipVerify : bool)
  (configs : gmap string AuthConfig) (w : World) :
  let call :=
    attempt urlParseError normalizeRegistryAddress name insecureSkipVerify
      configs in
  let pullOpts := normalize (parseImageOptions name) in
  run remote
    (dataSourceDockerRegistryImageRead urlParseError normalizeRegistryAddress
       name insecureSkipVerify configs) w
  = match run remote (call false) w with
    | (Some (OK digest), w1) => (Some (ReadOK digest digest), w1)
    | (Some (Error _), w1) =>
        match run remote (call true) w1 with
        | (Some (OK digest), w2) => (Some (ReadOK digest digest), w2)
        | (Some (Error err), w2) =>
            (Some (ReadErrorf (Repository pullOpts) (Tag pullOpts) err), w2)
        | (None, w2) => (None, w2)
        end
    | (None, w1) => (None, w1)
    end.
Proof.
  intros call pullOpts. subst call.
  unfold dataSourceDockerRegistryImageRead, attempt. fold pullOpts.
  destruct (credentials normalizeRegistryAddress configs (Registry pullOpts))
    as [username password].
  cbn [fst snd]. unfold mbind, Prog_bind, mret, Prog_ret.
  rewrite run_bind.
  destruct (run remote _ w) as [[[digest|e1]|] w1]; try reflexivity.
  rewrite run_bind.
  destruct (run remote _ w1) as [[[digest|e2]|] w2]; reflexivity.
Qed.

(** X9.  When the first call returns a digest the read ends there: the
    digest becomes both the id and the sha256_digest of the resource, in the
    world the first call left, and the fallback call is not made. *)
Theorem read_first_success (name : string) (insecureSkipVerify : bool)
  (configs : gmap string AuthConfig) (w w1 : World) (digest : string) :
  run remote
    (attempt urlParseError normalizeRegistryAddress name insecureSkipVerify
       configs false) w = (Some (OK digest), w1) ->
  run remote
    (dataSourceDockerRegistryImageRead urlParseError normalizeRegistryAddress
       name insecureSkipVerify configs) w
  = (Some (ReadOK digest digest), w1).
Proof. intros H. rewrite run_read. cbv zeta. rewrite H. reflexivity. Qed.

(** X10.  A read that succeeds sets the id and the sha256_digest to the
    same string, and that string is not empty. *)
Theorem read_id_nonempty (name : string) (insecureSkipVerify : bool)
  (configs : gmap string AuthConfig) (w : World) (id digest : string) :
  fst (run remote
         (dataSourceDockerRegistryImageRead urlParseError
            normalizeRegistryAddress name insecureSkipVerify configs) w)
  = Some (ReadOK id digest) ->
  id = digest /\ id <> EmptyString.
Proof.
  rewrite run_read. cbv zeta. unfold attempt.
  destruct (run remote (getImageDigest _ _ _ _ _ _ _ false) w)
    as [[[d|e1]|] w1] eqn:H1; cbv beta iota.
  - cbn [fst]. intros [= <- <-]. split; [reflexivity|].
    apply (f_equal fst) in H1.
    exact (getImageDigest_nonempty _ _ _ _ _ _ _ _ _ _ _ H1).
  - destruct (run remote (getImageDigest _ _ _ _ _ _ _ true) w1)
      as [[[d|e2]|] w2] eqn:H2; cbn [fst]; try discriminate.
    intros [= <- <-]. split; [reflexivity|].
    apply (f_equal fst) in H2.
    exact (getImageDigest_nonempty _ _ _ _ _ _ _ _ _ _ _ H2).
  - discriminate.
Qed.

(** X11.  A read sends at most six requests, three for each call; and six
    are sent when the registry challenges both calls, the token endpoint
    issues a token both times and the registry refuses the retried
    requests. *)
Theorem read_request_bound (name : string) (insecureSkipVerify : bool)
  (configs : gmap string AuthConfig) (w : World) :
  (sentCount (snd (run remote
                     (dataSourceDockerRegistryImageRead urlParseError
                        normalizeRegistryAddress name insecureSkipVerify
                        configs) w))
   <= sentCount w + 6)%nat
  /\ sentCount (snd (run sternHub
                       (dataSourceDockerRegistryImageRead rejectCTL hostKey
                          "alpine" false ∅) initial)) = 6%nat.
Proof.
  split; [|vm_compute; reflexivity].
  rewrite run_read. cbv zeta. unfold attempt.
  match goal with
  | |- context [run remote (getImageDigest ?u ?r ?i ?t ?us ?pw ?ins false) w] =>
      pose proof (getImageDigest_request_bounds u remote w r i t us pw ins
                    false) as (B1 & _)
  end.
  cbv zeta in B1.
  destruct (run remote (getImageDigest _ _ _ _ _ _ _ false) w)
    as [[[d|e1]|] w1]; cbn [snd] in *; try lia.
  match goal with
  | |- context [run remote (getImageDigest ?u ?r ?i ?t ?us ?pw ?ins true) w1] =>
      pose proof (getImageDigest_request_bounds u remote w1 r i t us pw ins
                    true) as (B2 & _)
  end.
  cbv zeta in B2.
  destruct (run remote (getImageDigest _ _ _ _ _ _ _ true) w1)
    as [[[d|e2]|] w2]; cbn [snd] in *; lia.
Qed.

Lemma getImageDigest_refused (w : World)
  (registry image tag username password : string)
  (insecureSkipVerify fallback : bool) (err : string) :
  urlParseError (manifestURL registry image tag) = Some err ->
  run remote
    (getImageDigest urlParseError registry image tag username password
       insecureSkipVerify fallback) w
  = (Some (Error (ErrCreatingRequest err)),
     {| DefaultClient_Transport :=
          Some {| http.InsecureSkipVerify := insecureSkipVerify |};
        trace := trace w |}).
Proof.
  intros H. unfold getImageDigest, NewRequest. rewrite H. reflexivity.
Qed.

(** X12.  When the manifest URL of the normalised reference is refused,
    the read fails with the request-build error, wrapped in the diagnostic
    with the repository and the tag, after both calls have refused it: no
    request is sent and no body is read, only the transport of the default
    client is replaced. *)
Theorem read_refused_url (name : string) (insecureSkipVerify : bool)
  (configs : gmap string AuthConfig) (w : World) (err : string) :
  let pullOpts := normalize (parseImageOptions name) in
  urlParseError
    (manifestURL (Registry pullOpts) (Repository pullOpts) (Tag pullOpts))
  = Some err ->
  run remote
    (dataSourceDockerRegistryImageRead urlParseError normalizeRegistryAddress
       name insecureSkipVerify configs) w
  = (Some (ReadErrorf (Repository pullOpts) (Tag pullOpts)
             (ErrCreatingRequest err)),
     {| DefaultClient_Transport :=
          Some {| http.InsecureSkipVerify := insecureSkipVerify |};
        trace := trace w |}).
Proof.
  intros pullOpts H. rewrite run_read. cbv zeta. unfold attempt.
  fold pullOpts. rewrite !(getImageDigest_refused _ _ _ _ _ _ _ _ err H).
  reflexivity.
Qed.

(** X13.  A registry without an entry in the credential store, under its
    normalised address, is contacted without an Authorization header, by
    the first call and by the fallback call. *)
Theorem attempt_without_credentials (name : string) (insecureSkipVerify : bool)
  (configs : gmap string AuthConfig) (fallback : bool) :
  let pullOpts := normalize (parseImageOptions name) in
  configs !! normalizeRegistryAddress (Registry pullOpts) = None ->
  urlParseError
    (manifestURL (Registry pullOpts) (Repository pullOpts) (Tag pullOpts))
  = None ->
  exists req k,
    attempt urlParseError normalizeRegistryAddress name insecureSkipVerify
      configs fallback
    = SetTransport {| http.InsecureSkipVerify := insecureSkipVerify |}
        (Do req k)
    /\ http.ReqHeader req !! "Authorization" = None.
Proof.
  intros pullOpts Hnone Hurl. unfold attempt, credentials. fold pullOpts.
  rewrite Hnone. cbn [fst snd].
  apply (anonymous_request_unauthorized urlParseError _ _ _ _ _ _ Hurl).
Qed.

End ReadFacts.

Lemma read_first_success_witness :
  run (hub "200 OK" 200 tokenJSON)
    (dataSourceDockerRegistryImageRead rejectCTL hostKey "alpine" false ∅)
    initial
  = (Some (ReadOK "sha256:feed" "sha256:feed"),
     snd (run (hub "200 OK" 200 tokenJSON) alpineLookup initial)).
Proof.
  apply read_first_success. vm_compute. reflexivity.
Defined.

Lemma read_id_nonempty_witness :
  fst (run (hub "200 OK" 200 tokenJSON)
         (dataSourceDockerRegistryImageRead rejectCTL hostKey "alpine" false ∅)
         initial)
  = Some (ReadOK "sha256:feed" "sha256:feed")
  /\ "sha256:feed" <> EmptyString.
Proof.
  assert (H : fst (run (hub "200 OK" 200 tokenJSON)
                     (dataSourceDockerRegistryImageRead rejectCTL hostKey
                        "alpine" false ∅) initial)
              = Some (ReadOK "sha256:feed" "sha256:feed"))
    by (vm_compute; reflexivity).
  split; [exact H|].
  exact (proj2 (read_id_nonempty rejectCTL hostKey
                  (hub "200 OK" 200 tokenJSON) "alpine" false ∅ initial
                  "sha256:feed" "sha256:feed" H)).
Defined.

Lemma read_refused_url_witness :
  fst (run (hub "200 OK" 200 tokenJSON)
         (dataSourceDockerRegistryImageRead rejectCTL hostKey tabbedName
            false ∅) initial)
  = Some (ReadErrorf ("library/" +:+ tabbedName) "latest"
            (ErrCreatingRequest "net/url: invalid control character in URL")).
Proof.
  rewrite (read_refused_url rejectCTL hostKey (hub "200 OK" 200 tokenJSON)
             tabbedName false ∅ initial
             "net/url: invalid control character in URL");
    vm_compute; reflexivity.
Defined.

Lemma attempt_without_credentials_witness :
  exists req k,
    attempt rejectCTL hostKey "alpine" false ∅ true
    = SetTransport {| http.InsecureSkipVerify := false |} (Do req k)
    /\ http.ReqHeader req !! "Authorization" = None.
Proof.
  apply (attempt_without_credentials rejectCTL hostKey "alpine" false ∅ true);
    reflexivity.
Defined.

Lemma manifest_request_shape_witness :
  exists req k,
    getImageDigest rejectCTL "myregistry.com" "foo/bar" "1.2" "user" "secret"
      true false
    = SetTransport {| http.InsecureSkipVerify := true |} (Do req k)
    /\ http.URL req = "https://myregistry.com/v2/foo/bar/manifests/1.2"
    /\ http.ReqHeader req !! "Accept" = Some mediaTypes.
Proof.
  destruct (manifest_request_shape rejectCTL "myregistry.com" "foo/bar" "1.2"
              "user" "secret" true false eq_refl)
    as (req & k & Hp & _ & Hu & Ha & _).
  exists req, k. split; [exact Hp|]. split; [exact Hu | exact Ha].
Defined.

(** ** More on the token request *)

Lemma allChars_app (p : ascii -> bool) (s t : string) :
  allChars p (s +:+ t) = allChars p s && allChars p t.
Proof.
  induction s as [|c s IH]; [reflexivity|].
  rewrite app_cons. simpl. rewrite IH. apply andb_assoc.
Qed.

Lemma count_app (c : ascii) (s t : string) :
  count c (s +:+ t) = (count c s + count c t)%nat.
Proof.
  induction s as [|d s IH]; [reflexivity|].
  rewrite app_cons. simpl. rewrite IH. lia.
Qed.

Lemma allChars_count (p : ascii -> bool) (c : ascii) (s : string) :
  allChars p s = true -> p c = false -> count c s = 0%nat.
Proof.
  intros Hs Hc. induction s as [|d s IH]; [reflexivity|].
  simpl in *. apply andb_true_iff in Hs as [Hd Hs].
  destruct (Ascii.eqb_spec c d) as [->|_]; [congruence|].
  rewrite (IH Hs). reflexivity.
Qed.

Lemma upperhex_escaped (n : Z) : escapedByte (digit16 upperhex n) = true.
Proof.
  unfold digit16.
  assert (H : (Z.to_nat (n mod 16) < 16)%nat).
  { pose proof (Z.mod_pos_bound n 16 eq_refl). lia. }
  revert H. generalize (Z.to_nat (n mod 16)). intros m H.
  do 16 (destruct m as [|m]; [reflexivity|]). exfalso. lia.
Qed.

Lemma QueryEscape_cons (c : ascii) (s : string) :
  url.QueryEscape (String c s)
  = url.QueryEscape (String c EmptyString) +:+ url.QueryEscape s.
Proof.
  simpl. destruct (Ascii.eqb c " "); [reflexivity|].
  destruct (url.shouldEscape c); reflexivity.
Qed.

Lemma QueryEscape_one (c : ascii) :
  allChars escapedByte (url.QueryEscape (String c EmptyString)) = true.
Proof.
  simpl. destruct (Ascii.eqb c " "); [reflexivity|].
  destruct (url.shouldEscape c) eqn:E.
  - simpl. rewrite !upperhex_escaped. reflexivity.
  - simpl. rewrite andb_true_r. unfold url.shouldEscape in E.
    apply negb_false_iff in E. unfold escapedByte.
    destruct (url.isAlnum c); [reflexivity|]. simpl in *.
    destruct (Ascii.eqb c "-"); [reflexivity|].
    destruct (Ascii.eqb c "_"); [reflexivity|].
    destruct (Ascii.eqb c "."); [reflexivity|].
    destruct (Ascii.eqb c "~"); [reflexivity|discriminate].
Qed.

(** [QueryEscape] produces unreserved bytes, percent signs and plus signs
    only. *)
Lemma QueryEscape_bytes (s : string) :
  allChars escapedByte (url.QueryEscape s) = true.
Proof.
  induction s as [|c s IH]; [reflexivity|].
  rewrite QueryEscape_cons, allChars_app, QueryEscape_one, IH. reflexivity.
Qed.

(** X14.  Whatever the challenge holds, the query of the token request has
    exactly the two parameters scope and service: it is "scope=", escaped
    bytes, "&service=" and escaped bytes, with one ampersand and two equals
    signs, so a service or scope value cannot add or alter a parameter.  The
    realm in front of it is used as it is. *)
Theorem token_query_two_parameters (auth : gmap string string) :
  exists scope service,
    tokenURL auth
    = at_ auth "realm" +:+ "?scope=" +:+ scope +:+ "&service=" +:+ service
    /\ allChars escapedByte scope = true
    /\ allChars escapedByte service = true
    /\ count "&" (url.Encode (tokenParams auth)) = 1%nat
    /\ count "=" (url.Encode (tokenParams auth)) = 2%nat.
Proof.
  exists (url.QueryEscape (at_ auth "scope")),
         (url.QueryEscape (at_ auth "service")).
  unfold tokenURL. rewrite Encode_tokenParams.
  split; [reflexivity|].
  split; [apply QueryEscape_bytes|]. split; [apply QueryEscape_bytes|].
  change ("scope=" +:+ url.QueryEscape (at_ auth "scope") +:+ "&service="
          +:+ url.QueryEscape (at_ auth "service"))
    with ("scope=" +:+ (url.QueryEscape (at_ auth "scope") +:+ ("&service="
          +:+ url.QueryEscape (at_ auth "service")))).
  rewrite !count_app.
  rewrite !(allChars_count escapedByte _ _ (QueryEscape_bytes _))
    by reflexivity.
  split; reflexivity.
Qed.

(** ** More on the decoding of the token *)

Lemma stringBody_plain (t rest : string) : forall fuel,
  allChars plainByte t = true ->
  (strings.len t < fuel)%nat ->
  json.stringBody fuel (t +:+ String dquote rest) = Some (t, rest).
Proof.
  induction t as [|c t IH]; intros fuel Hp Hf.
  - destruct fuel as [|f]; [simpl in Hf; lia|]. reflexivity.
  - destruct fuel as [|f]; [simpl in Hf; lia|].
    simpl in Hp. apply andb_true_iff in Hp as [Hc Hp].
    unfold plainByte in Hc.
    apply andb_true_iff in Hc as [Hc Hb].
    apply andb_true_iff in Hc as [Hc Hq].
    apply andb_true_iff in Hc as [H32 H128].
    apply negb_true_iff in Hq, Hb.
    rewrite app_cons. cbn [json.stringBody]. rewrite Hq, Hb.
    assert (Hlow : (code c <? 32) = false) by lia. rewrite Hlow.
    unfold json.runeLen. cbv zeta. rewrite H128.
    cbn [strings.drop strings.take].
    rewrite (IH f Hp) by (simpl in Hf; lia). reflexivity.
Qed.

Lemma skipSpace_dquote (s : string) :
  json.skipSpace (String dquote s) = String dquote s.
Proof. reflexivity. Qed.

(** A string literal as a value. *)
Lemma parseValue_string (t rest : string) (fuel : nat) (depth : Z) :
  allChars plainByte t = true ->
  json.parseValue (S fuel) depth (String dquote (t +:+ String dquote rest))
  = Some (json.Str t, rest).
Proof.
  intros Hp. cbn [json.parseValue]. rewrite skipSpace_dquote.
  change (Ascii.eqb dquote "{") with false.
  change (Ascii.eqb dquote "[") with false.
  change (Ascii.eqb dquote dquote) with true. cbv iota.
  rewrite (stringBody_plain t rest _ Hp) by (rewrite len_append; simpl; lia).
  reflexivity.
Qed.

Lemma parseValue_object (fuel : nat) (x : string) :
  json.parseValue (S fuel) 0 (String "{" (String dquote x))
  = '(m, r1) ← json.member (json.parseValue fuel 1) (String dquote x);
    '(ms, r2) ← json.members (json.parseValue fuel 1) (S (strings.len r1)) r1;
    Some (json.Object (m :: ms), r2).
Proof. reflexivity. Qed.

Lemma member_plain (elem : string -> option (json.value * string))
  (k rest : string) :
  allChars plainByte k = true ->
  json.member elem (String dquote (k +:+ String dquote (String ":" rest)))
  = '(v, r3) ← elem rest; Some ((k, v), r3).
Proof.
  intros Hk. unfold json.member. rewrite skipSpace_dquote.
  change (Ascii.eqb dquote dquote) with true. cbv iota.
  rewrite (stringBody_plain k (String ":" rest) _ Hk)
    by (rewrite len_append; simpl; lia).
  reflexivity.
Qed.

(** An object with the one member "token". *)
Lemma parse_tokenBody (t : string) :
  allChars plainByte t = true ->
  json.parse (tokenBody t) = Some (json.Object [("token", json.Str t)]).
Proof.
  intros Hp.
  assert (E : tokenBody t
              = String "{"
                  (String dquote
                     ("token" +:+ String dquote
                        (String ":"
                           (String dquote (t +:+ String dquote "}")))))).
  { unfold tokenBody, quoted.
    change (String dquote t +:+ String dquote EmptyString)
      with (String dquote (t +:+ String dquote EmptyString)).
    rewrite (app_cons dquote (t +:+ String dquote EmptyString) "}").
    rewrite (app_assoc' t). reflexivity. }
  rewrite E. clear E. unfold json.parse.
  rewrite parseValue_object, (member_plain _ "token" _ eq_refl).
  cbn [strings.len].
  rewrite (parseValue_string t "}" _ 1 Hp).
  reflexivity.
Qed.

(** X15.  A token response whose body is the JSON object with the one
    member "token", holding a string of printable ASCII bytes without quote
    or backslash, decodes to that very string: it is the token the retried
    request will carry. *)
Theorem token_round_trip (t : string) :
  allChars plainByte t = true ->
  Unmarshal (bytes_of_string (tokenBody t)) {| Token := EmptyString |}
  = OK {| Token := t |}
  /\ tokenOf (OK (respond "200 OK" 200 [] (tokenBody t)))
     = Some {| Token := t |}.
Proof.
  intros Hp.
  assert (HU : Unmarshal (bytes_of_string (tokenBody t))
                 {| Token := EmptyString |} = OK {| Token := t |}).
  { unfold Unmarshal, string_of_bytes, bytes_of_string.
    rewrite String.string_of_list_byte_of_string, (parse_tokenBody t Hp).
    reflexivity. }
  split; [exact HU|].
  unfold tokenOf, respond. cbn [http.StatusCode http.RespBody readAll].
  change (200 =? http.StatusOK) with true. cbv iota. rewrite HU. reflexivity.
Qed.

Lemma token_round_trip_witness :
  Unmarshal (bytes_of_string (tokenBody "eyJhbGciOiJSUzI1NiJ9.e30.c2ln"))
    {| Token := EmptyString |}
  = OK {| Token := "eyJhbGciOiJSUzI1NiJ9.e30.c2ln" |}.
Proof.
  exact (proj1 (token_round_trip "eyJhbGciOiJSUzI1NiJ9.e30.c2ln" eq_refl)).
Defined.
